(** * DrwRendererBase: the replay engine of colors-drw-parser

    A shallow embedding of [src/renderer/DrwRendererBase.ts].

    - JavaScript numbers that the engine only uses as indices or counters
      (command indices, layer indices, user ids, the batch size) are [Z];
      numbers it multiplies or divides (coordinates, pressure, canvas size)
      are IEEE-754 doubles, Rocq's primitive [float].
    - A field that is declared but not yet assigned ([width], [height]) is
      [None]; in arithmetic it converts to NaN as JavaScript's [undefined]
      does.
    - [toolState] and [alphaBuffer] are references into [userStates]: the
      record keeps the key of the aliased entry ([currentUser]), so a write
      through [this.toolState] is a write into the registry.
    - The abstract methods of the class (the rendering backend) and the
      update callback have no body here: a call of one is appended to
      [calls], oldest first, with its arguments. They are taken not to call
      back into the engine.
    - [requestAnimationFrame] queues a [playbackLoop]; [frames] counts the
      queued ones and [tick] lets the host run one.
    - A JavaScript [TypeError] (a property read on [undefined]) is [None]. *)

From Stdlib Require Import ZArith Lia.
From Stdlib Require Import Floats.PrimFloat Floats.FloatOps Floats.FloatAxioms
  Floats.FloatLemmas.
From stdpp Require Import base option list gmap.

Open Scope Z_scope.

(** ** Types imported from [../parser] and [./State]

    Neither module is among the sources; the renderer reads the fields
    listed below and nothing else. *)

(** Modelled from the spec: the [CommandType] enum of [../parser]. The four
    kinds are the ones [handleCommand] switches on; [TYPE_OTHER] stands for
    any other discriminant value. *)
Inductive CommandType :=
  | TYPE_DRAW
  | TYPE_DRAWEND
  | TYPE_COLORCHANGE
  | TYPE_SIZECHANGE
  | TYPE_OTHER (tag : Z).

(** Modelled from the spec: the [LayerAction] enum of [../parser], with
    [LAYERACTION_OTHER] for a value the inner switch has no case for. *)
Inductive LayerAction :=
  | LAYERACTION_SET
  | LAYERACTION_NEWPOS
  | LAYERACTION_CLEAR
  | LAYERACTION_COPY
  | LAYERACTION_OTHER (tag : Z).

(** [Color], [BrushControl] and [BrushType] are only stored and handed on. *)
Definition Color := Z.
Definition BrushControl := Z.
Definition BrushType := Z.

Module Command.
Record t := mk {
  type : CommandType;
  x : float;
  y : float;
  pressure : float;
  layer : option Z;            (* number | null *)
  layerAction : LayerAction;
  color : option Color;        (* Color | null *)
  flipX : bool;
  flipY : bool;
  user : Z;
  size : float;
  brushControl : BrushControl;
  brushType : BrushType;
  opacity : float
}.
End Command.

Module DrwHeader.
Record t := mk { aspectRatio : float }.
End DrwHeader.

Module DrwParser.
Record t := mk {
  header : DrwHeader.t;
  commands : list Command.t
}.
Definition numCommands (d : t) : Z := Z.of_nat (length (commands d)).
(** [getCommand] outside the log has no command to return. *)
Definition getCommand (d : t) (cmdIndex : Z) : option Command.t :=
  if decide (0 ≤ cmdIndex) then commands d !! Z.to_nat cmdIndex else None.
End DrwParser.

Module ToolState.
Record t := mk {
  layer : Z;
  lastX : float;
  lastY : float;
  pressure : float;
  isDrawing : bool;
  color : Color;
  brushRadius : float;
  brushControl : BrushControl;
  brushType : BrushType;
  opacity : float;
  user : Z
}.
Definition set_layer (v : Z) (s : t) : t :=
  mk v (lastX s) (lastY s) (pressure s) (isDrawing s) (color s)
     (brushRadius s) (brushControl s) (brushType s) (opacity s) (user s).
Definition set_stroke (px py pr : float) (s : t) : t :=
  mk (layer s) px py pr true (color s)
     (brushRadius s) (brushControl s) (brushType s) (opacity s) (user s).
Definition set_isDrawing (v : bool) (s : t) : t :=
  mk (layer s) (lastX s) (lastY s) (pressure s) v (color s)
     (brushRadius s) (brushControl s) (brushType s) (opacity s) (user s).
Definition set_color (v : Color) (s : t) : t :=
  mk (layer s) (lastX s) (lastY s) (pressure s) (isDrawing s) v
     (brushRadius s) (brushControl s) (brushType s) (opacity s) (user s).
Definition set_brush (rad : float) (bc : BrushControl) (bt : BrushType)
    (op : float) (s : t) : t :=
  mk (layer s) (lastX s) (lastY s) (pressure s) (isDrawing s) (color s)
     rad bc bt op (user s).
Definition set_user (v : Z) (s : t) : t :=
  mk (layer s) (lastX s) (lastY s) (pressure s) (isDrawing s) (color s)
     (brushRadius s) (brushControl s) (brushType s) (opacity s) v.
End ToolState.

Module UserState.
(** [new UserState(width, height)]: a tool state and a pixel buffer made
    for the canvas size of that moment. The buffer is kept as the size it
    was made for. *)
Record t := mk {
  toolState : ToolState.t;
  bufferWidth : option float;
  bufferHeight : option float
}.
Definition map_toolState (f : ToolState.t → ToolState.t) (u : t) : t :=
  mk (f (toolState u)) (bufferWidth u) (bufferHeight u).
End UserState.

(** ** The renderer's own types *)

Module DrwLayerBase.
Record t := mk {
  ident : nat;                 (* which [createLayer] call made it *)
  width : option float;
  height : option float;
  isVisible : bool
}.
End DrwLayerBase.

Module PlaybackState.
Record t := mk {
  isPlaying : bool;
  commandsPerUpdate : Z;
  currCommandIndex : Z;
  numCommands : Z;
  updateCompleteCallback : nat   (* a handle on the host's function *)
}.
Definition set_isPlaying (v : bool) (p : t) : t :=
  mk v (commandsPerUpdate p) (currCommandIndex p) (numCommands p)
     (updateCompleteCallback p).
Definition set_commandsPerUpdate (v : Z) (p : t) : t :=
  mk (isPlaying p) v (currCommandIndex p) (numCommands p)
     (updateCompleteCallback p).
Definition set_currCommandIndex (v : Z) (p : t) : t :=
  mk (isPlaying p) (commandsPerUpdate p) v (numCommands p)
     (updateCompleteCallback p).
Definition set_numCommands (v : Z) (p : t) : t :=
  mk (isPlaying p) (commandsPerUpdate p) (currCommandIndex p) v
     (updateCompleteCallback p).
Definition set_updateCompleteCallback (v : nat) (p : t) : t :=
  mk (isPlaying p) (commandsPerUpdate p) (currCommandIndex p)
     (numCommands p) v.
End PlaybackState.

(** Calls that leave the class: the abstract methods, [setSize] of a layer,
    and the update callback. *)
Inductive Call :=
  | call_createLayer
  | call_setSize (layerIdent : nat) (w h : float)
  | call_flip (flipX flipY : bool)
  | call_copyLayer (srcLayerIndex dstLayerIndex : Z)
  | call_clearLayer (layerIndex : Z)
  | call_resetLayer (layerIndex : Z)
  | call_updateBrush
  | call_beginStroke (px py pr : float)
  | call_strokeTo (px py pr : float)
  | call_finalizeStroke
  | call_updateComplete (callback : nat).

Definition is_callback (c : Call) : bool :=
  match c with call_updateComplete _ => true | _ => false end.

Definition is_backend (c : Call) : bool := negb (is_callback c).

Definition is_resetLayer (c : Call) : bool :=
  match c with call_resetLayer _ => true | _ => false end.

Definition is_resetLayer_of (i : Z) (c : Call) : bool :=
  match c with call_resetLayer j => bool_decide (i = j) | _ => false end.

Record DrwRendererBase := mkRenderer {
  width : option float;
  height : option float;
  drw : DrwParser.t;
  layers : list (option DrwLayerBase.t);   (* a slot may hold [undefined] *)
  userStates : gmap Z UserState.t;
  currentUser : Z;              (* whose entry [toolState]/[alphaBuffer] alias *)
  playbackState : PlaybackState.t;
  calls : list Call;
  frames : nat
}.

Definition set_size (w h : option float) (r : DrwRendererBase) :=
  mkRenderer w h (drw r) (layers r) (userStates r) (currentUser r)
    (playbackState r) (calls r) (frames r).
Definition set_layers (l : list (option DrwLayerBase.t)) (r : DrwRendererBase) :=
  mkRenderer (width r) (height r) (drw r) l (userStates r) (currentUser r)
    (playbackState r) (calls r) (frames r).
Definition set_userStates (m : gmap Z UserState.t) (r : DrwRendererBase) :=
  mkRenderer (width r) (height r) (drw r) (layers r) m (currentUser r)
    (playbackState r) (calls r) (frames r).
Definition set_currentUser (u : Z) (r : DrwRendererBase) :=
  mkRenderer (width r) (height r) (drw r) (layers r) (userStates r) u
    (playbackState r) (calls r) (frames r).
Definition set_playbackState (p : PlaybackState.t) (r : DrwRendererBase) :=
  mkRenderer (width r) (height r) (drw r) (layers r) (userStates r)
    (currentUser r) p (calls r) (frames r).
Definition set_calls (c : list Call) (r : DrwRendererBase) :=
  mkRenderer (width r) (height r) (drw r) (layers r) (userStates r)
    (currentUser r) (playbackState r) c (frames r).
Definition set_frames (n : nat) (r : DrwRendererBase) :=
  mkRenderer (width r) (height r) (drw r) (layers r) (userStates r)
    (currentUser r) (playbackState r) (calls r) n.

(** One call leaving the class. *)
Definition emit (c : Call) (r : DrwRendererBase) : DrwRendererBase :=
  set_calls (calls r ++ [c]) r.

(** [undefined] in arithmetic is NaN. *)
Definition toNumber (v : option float) : float :=
  match v with Some f => f | None => nan end.

(** [this.toolState]: the tool state of the aliased registry entry. *)
Definition toolState (r : DrwRendererBase) : option ToolState.t :=
  UserState.toolState <$> userStates r !! currentUser r.

(** A write through [this.toolState]. *)
Definition with_toolState (f : ToolState.t → ToolState.t)
    (r : DrwRendererBase) : DrwRendererBase :=
  set_userStates (alter (UserState.map_toolState f) (currentUser r) (userStates r)) r.

(** [get meta] *)
Definition meta (r : DrwRendererBase) : DrwHeader.t := DrwParser.header (drw r).

Definition currCommandIndex (r : DrwRendererBase) : Z :=
  PlaybackState.currCommandIndex (playbackState r).
Definition numCommands (r : DrwRendererBase) : Z :=
  PlaybackState.numCommands (playbackState r).
Definition isPlaying (r : DrwRendererBase) : bool :=
  PlaybackState.isPlaying (playbackState r).
Definition playbackRate (r : DrwRendererBase) : Z :=
  PlaybackState.commandsPerUpdate (playbackState r).
Definition set_playbackRate (newRate : Z) (r : DrwRendererBase) :=
  set_playbackState (PlaybackState.set_commandsPerUpdate newRate (playbackState r)) r.

(** ** Users and layers *)

(** [setUser]: the entry is made on first use, from [fresh], the tool state
    a new [UserState] starts with. *)
Definition setUser (fresh : ToolState.t) (userIndex : Z)
    (r : DrwRendererBase) : DrwRendererBase :=
  let r1 :=
    match userStates r !! userIndex with
    | Some _ => r
    | None =>
        set_userStates
          (<[userIndex := UserState.mk fresh (width r) (height r)]> (userStates r)) r
    end in
  set_currentUser userIndex r1.

(** [createLayer] is abstract: a layer of the current canvas size. *)
Definition createLayer (ident : nat) (r : DrwRendererBase)
    : DrwLayerBase.t * DrwRendererBase :=
  (DrwLayerBase.mk ident (width r) (height r) true, emit call_createLayer r).

Definition setLayer (layerIndex : Z) (r : DrwRendererBase)
    : option DrwRendererBase :=
  _ ← toolState r;
  Some (with_toolState (ToolState.set_layer layerIndex) r).

(** [Array.prototype.splice]'s start position for an array of [len]. *)
Definition splice_start (len : nat) (start : Z) : nat :=
  if decide (start < 0) then Z.to_nat (Z.max (Z.of_nat len + start) 0)
  else Z.to_nat (Z.min start (Z.of_nat len)).

Definition moveLayer (srcLayerIndex dstLayerIndex : Z)
    (r : DrwRendererBase) : DrwRendererBase :=
  let l := layers r in
  let s := splice_start (length l) srcLayerIndex in
  (* splice(src, 1)[0]: [undefined] when nothing was removed *)
  let srcLayer := mjoin (l !! s) in
  let l1 := take s l ++ drop (S s) l in
  let d := splice_start (length l1) dstLayerIndex in
  set_layers (take d l1 ++ srcLayer :: drop d l1) r.

(** ** Public API *)

(** [layer.setSize(width, height)] is abstract: the layer takes the size. *)
Definition setSize (w h : float) (l : DrwLayerBase.t) : DrwLayerBase.t :=
  DrwLayerBase.mk (DrwLayerBase.ident l) (Some w) (Some h) (DrwLayerBase.isVisible l).

(** [layers.forEach(layer => layer.setSize(width, height))]: the resized
    stack and the [setSize] calls, or a [TypeError] at an [undefined] slot. *)
Fixpoint forEach_setSize (w h : float) (ls : list (option DrwLayerBase.t))
    : option (list (option DrwLayerBase.t) * list Call) :=
  match ls with
  | [] => Some ([], [])
  | None :: _ => None
  | Some l :: rest =>
      '(rest', cs) ← forEach_setSize w h rest;
      Some (Some (setSize w h l) :: rest',
            call_setSize (DrwLayerBase.ident l) w h :: cs)
  end.

Definition setCanvasWidth (w : float) (r : DrwRendererBase)
    : option DrwRendererBase :=
  let h := (w / DrwHeader.aspectRatio (DrwParser.header (drw r)))%float in
  let r1 := set_size (Some w) (Some h) r in
  '(ls, cs) ← forEach_setSize w h (layers r1);
  Some (set_calls (calls r1 ++ cs) (set_layers ls r1)).

(** [this.playbackState.currCommandIndex = cmdIndex] *)
Definition set_cursor (cmdIndex : Z) (r : DrwRendererBase) : DrwRendererBase :=
  set_playbackState
    (PlaybackState.set_currCommandIndex cmdIndex (playbackState r)) r.

(** [handleCommand]: the command at [cmdIndex] against the tool state and
    the layer stack, then the cursor. *)
Definition handleCommand (cmdIndex : Z) (r : DrwRendererBase)
    : option DrwRendererBase :=
  cmd ← DrwParser.getCommand (drw r) cmdIndex;
  r1 ← match Command.type cmd with
       | TYPE_DRAW =>
           let x := (Command.x cmd * toNumber (width r))%float in
           let y := (Command.y cmd * toNumber (height r))%float in
           ts ← toolState r;
           let r1 :=
             if negb (ToolState.isDrawing ts)
             then emit (call_beginStroke x y (Command.pressure cmd)) r
             else emit (call_strokeTo x y (Command.pressure cmd)) r in
           Some (with_toolState (ToolState.set_stroke x y (Command.pressure cmd)) r1)
       | TYPE_DRAWEND =>
           match Command.layer cmd with
           | None =>
               let r1 := emit call_finalizeStroke r in
               _ ← toolState r1;
               Some (with_toolState (ToolState.set_isDrawing false) r1)
           | Some layer =>
               match Command.layerAction cmd with
               | LAYERACTION_SET => setLayer layer r
               | LAYERACTION_NEWPOS =>
                   ts ← toolState r;
                   let r1 := moveLayer (ToolState.layer ts) layer r in
                   ts1 ← toolState r1;
                   setLayer (ToolState.layer ts1) r1
               | LAYERACTION_CLEAR => Some (emit (call_clearLayer layer) r)
               | LAYERACTION_COPY =>
                   ts ← toolState r;
                   Some (emit (call_copyLayer (ToolState.layer ts) layer) r)
               | LAYERACTION_OTHER _ => Some r
               end
           end
       | TYPE_COLORCHANGE =>
           match Command.color cmd with
           | Some c =>
               _ ← toolState r;
               Some (emit call_updateBrush (with_toolState (ToolState.set_color c) r))
           | None =>
               let r1 :=
                 if Command.flipX cmd then emit (call_flip true false) r
                 else if Command.flipY cmd then emit (call_flip false true) r
                 else r in
               _ ← toolState r1;
               Some (with_toolState (ToolState.set_user (Command.user cmd)) r1)
           end
       | TYPE_SIZECHANGE =>
           _ ← toolState r;
           Some (emit call_updateBrush
                   (with_toolState
                      (ToolState.set_brush
                         (Command.size cmd * toNumber (width r))%float
                         (Command.brushControl cmd) (Command.brushType cmd)
                         (Command.opacity cmd)) r))
       | TYPE_OTHER _ => Some r
       end;
  Some (set_cursor cmdIndex r1).

(** [for (let i = 0; i < this.layers.length; i++) this.resetLayer(i)],
    with [n] layers still to visit. *)
Fixpoint resetLayers (n : nat) (i : Z) (r : DrwRendererBase) : DrwRendererBase :=
  match n with
  | O => r
  | S k => resetLayers k (i + 1) (emit (call_resetLayer i) r)
  end.

(** [for (let cmd = startIndex; cmd <= newCommandIndex; cmd++)
    this.handleCommand(cmd)], with [n] commands still to handle. *)
Fixpoint replay (n : nat) (cmd : Z) (r : DrwRendererBase)
    : option DrwRendererBase :=
  match n with
  | O => Some r
  | S k => r' ← handleCommand cmd r; replay k (cmd + 1) r'
  end.

Definition seekCommand (newCommandIndex : Z) (r : DrwRendererBase)
    : option DrwRendererBase :=
  let newCommandIndex := Z.min (Z.max 0 newCommandIndex) (numCommands r - 1) in
  let '(startIndex, r1) :=
    if decide (newCommandIndex < currCommandIndex r)
    then (0, resetLayers (length (layers r)) 0 r)
    else (currCommandIndex r + 1, r) in
  r2 ← replay (Z.to_nat (newCommandIndex - startIndex + 1)) startIndex r1;
  Some (emit (call_updateComplete
                (PlaybackState.updateCompleteCallback (playbackState r2))) r2).

Definition seekStart (r : DrwRendererBase) := seekCommand 0 r.
Definition seekEnd (r : DrwRendererBase) := seekCommand (numCommands r - 1) r.
Definition seekNext (r : DrwRendererBase) := seekCommand (currCommandIndex r + 1) r.
Definition seekPrev (r : DrwRendererBase) := seekCommand (currCommandIndex r - 1) r.

Definition onUpdate (callback : nat) (r : DrwRendererBase) : DrwRendererBase :=
  set_playbackState
    (PlaybackState.set_updateCompleteCallback callback (playbackState r)) r.

Definition set_isPlaying (v : bool) (r : DrwRendererBase) : DrwRendererBase :=
  set_playbackState (PlaybackState.set_isPlaying v (playbackState r)) r.

(** [requestAnimationFrame(() => this.playbackLoop())] *)
Definition requestAnimationFrame (r : DrwRendererBase) : DrwRendererBase :=
  set_frames (S (frames r)) r.

Definition play (r : DrwRendererBase) : DrwRendererBase :=
  requestAnimationFrame (set_isPlaying true r).

Definition pause (r : DrwRendererBase) : DrwRendererBase :=
  set_isPlaying false r.

Definition playbackLoop (r : DrwRendererBase) : option DrwRendererBase :=
  r1 ← seekCommand (currCommandIndex r + playbackRate r) r;
  if isPlaying r1 && bool_decide (currCommandIndex r1 < numCommands r1 - 1)
  then Some (requestAnimationFrame r1)
  else Some (set_isPlaying false r1).

(** The host runs one queued frame callback, if there is one. *)
Definition tick (r : DrwRendererBase) : option DrwRendererBase :=
  match frames r with
  | O => Some r
  | S n => playbackLoop (set_frames n r)
  end.

(** The constructor, for a parsed session [d]; [fresh] is the tool state a
    new [UserState] starts with. [layerProps] is only handed on to
    [createLayer] and is left out; callback handle [0] is the empty function
    the playback state starts with. *)
Definition new_DrwRendererBase (fresh : ToolState.t) (d : DrwParser.t)
    : option DrwRendererBase :=
  let r0 :=
    mkRenderer None None d [] ∅ 0 (PlaybackState.mk false 200 (-1) 0 0) [] 0 in
  let '(l0, r1) := createLayer 0 r0 in
  let '(l1, r2) := createLayer 1 r1 in
  let '(l2, r3) := createLayer 2 r2 in
  let '(l3, r4) := createLayer 3 r3 in
  let '(l4, r5) := createLayer 4 r4 in
  let r6 := set_layers [Some l0; Some l1; Some l2; Some l3; Some l4] r5 in
  let r7 := setUser fresh 0 r6 in
  r8 ← setLayer 0 r7;
  Some (set_playbackState
          (PlaybackState.set_numCommands (DrwParser.numCommands d) (playbackState r8)) r8).

(** ** Vocabulary of the statements *)

(** What [seekCommand] makes of a requested index for a log of [n] commands. *)
Definition clamp (target n : Z) : Z := Z.min (Z.max 0 target) (n - 1).

(** The calls issued between a state [r] and a later state [r']. *)
Definition new_calls (r r' : DrwRendererBase) : list Call :=
  drop (length (calls r)) (calls r').

(** The calls [handleCommand] can make. *)
Definition is_dispatch (c : Call) : bool :=
  match c with
  | call_flip _ _ | call_copyLayer _ _ | call_clearLayer _ | call_updateBrush
  | call_beginStroke _ _ _ | call_strokeTo _ _ _ | call_finalizeStroke => true
  | _ => false
  end.

(** The commands at [idxs], handled one after the other. *)
Fixpoint applyCommands (idxs : list Z) (r : DrwRendererBase)
    : option DrwRendererBase :=
  match idxs with
  | [] => Some r
  | i :: rest => r' ← handleCommand i r; applyCommands rest r'
  end.

(** The update callback fires. *)
Definition fire (r : DrwRendererBase) : DrwRendererBase :=
  emit (call_updateComplete
          (PlaybackState.updateCompleteCallback (playbackState r))) r.

(** The states the public API keeps the engine in: the command count is the
    log's, the cursor is [-1] or an index of the log, and [toolState] is
    bound. *)
Record wf (r : DrwRendererBase) : Prop := mk_wf {
  wf_numCommands : numCommands r = DrwParser.numCommands (drw r);
  wf_cursor : -1 ≤ currCommandIndex r ≤ numCommands r - 1;
  wf_toolState : is_Some (toolState r)
}.

(** [r'] is [r] after one or more commands, the last one at index [i]:
    what command handling leaves alone, and the calls it added. *)
Record handled (i : Z) (r r' : DrwRendererBase) : Prop := mk_handled {
  h_drw : drw r' = drw r;
  h_width : width r' = width r;
  h_height : height r' = height r;
  h_user : currentUser r' = currentUser r;
  h_frames : frames r' = frames r;
  h_playback :
    playbackState r' = PlaybackState.set_currCommandIndex i (playbackState r);
  h_toolState : is_Some (toolState r');
  h_calls : ∃ cs, calls r' = calls r ++ cs ∧ forallb is_dispatch cs = true
}.

(** What one [seekCommand] does to a well-formed engine. *)
Record seeked (x : Z) (r r' : DrwRendererBase) (cs : list Call) : Prop := mk_seeked {
  s_drw : drw r' = drw r;
  s_width : width r' = width r;
  s_height : height r' = height r;
  s_user : currentUser r' = currentUser r;
  s_frames : frames r' = frames r;
  s_playback :
    playbackState r' =
    PlaybackState.set_currCommandIndex (clamp x (numCommands r)) (playbackState r);
  s_toolState : is_Some (toolState r');
  s_dispatch : forallb is_dispatch cs = true;
  s_calls :
    calls r' =
    calls r
    ++ (if decide (clamp x (numCommands r) < currCommandIndex r)
        then call_resetLayer <$> seqZ 0 (Z.of_nat (length (layers r))) else [])
    ++ cs
    ++ [call_updateComplete (PlaybackState.updateCompleteCallback (playbackState r))];
  s_same : clamp x (numCommands r) = currCommandIndex r → r' = fire r
}.

(** The state the constructor leaves. *)
Definition fresh_engine (fresh : ToolState.t) (d : DrwParser.t) : DrwRendererBase :=
  mkRenderer None None d
    ((λ i, Some (DrwLayerBase.mk i None None true)) <$> [0; 1; 2; 3; 4]%nat)
    {[ 0 := UserState.mk (ToolState.set_layer 0 fresh) None None ]}
    0
    (PlaybackState.mk false 200 (-1) (DrwParser.numCommands d) 0)
    (replicate 5 call_createLayer)
    0.

(** Every layer of a stack given the size [w] by [h], and the [setSize]
    calls that does it. *)
Definition resized (w h : float) (ls : list (option DrwLayerBase.t))
    : list (option DrwLayerBase.t) :=
  map (option_map (setSize w h)) ls.

Definition setSize_calls (w h : float) (ls : list (option DrwLayerBase.t))
    : list Call :=
  map (λ l, call_setSize (DrwLayerBase.ident l) w h) (omap (M:=list) id ls).

(** The layers of a stack by the [createLayer] call that made them. *)
Definition idents (ls : list (option DrwLayerBase.t)) : list (option nat) :=
  map (option_map DrwLayerBase.ident) ls.

(** The layer [toolState.layer] points at. *)
Definition activeLayer (r : DrwRendererBase) : option nat :=
  ts ← toolState r;
  if decide (0 ≤ ToolState.layer ts)
  then l ← mjoin (layers r !! Z.to_nat (ToolState.layer ts)); Some (DrwLayerBase.ident l)
  else None.

(** The targets [targets], sought one after the other. *)
Fixpoint seekEach (targets : list Z) (r : DrwRendererBase)
    : option DrwRendererBase :=
  match targets with
  | [] => Some r
  | x :: rest => r' ← seekCommand x r; seekEach rest r'
  end.

(** Two engines in the same state that received the same backend calls;
    they may differ in how often the update callback fired. *)
Definition same_rendering (r1 r2 : DrwRendererBase) : Prop :=
  set_calls [] r1 = set_calls [] r2
  ∧ List.filter is_backend (calls r1) = List.filter is_backend (calls r2).

(** [Array.prototype.splice] twice, as [moveLayer] uses it: the element at
    [src] out, and in again at [dst]. *)
Definition spliced {A} (src dst : Z) (l : list (option A)) : list (option A) :=
  let s := splice_start (length l) src in
  let l1 := take s l ++ drop (S s) l in
  let d := splice_start (length l1) dst in
  take d l1 ++ mjoin (l !! s) :: drop d l1.

(** [n] frames of the host, one after the other. *)
Fixpoint ticks (n : nat) (r : DrwRendererBase) : option DrwRendererBase :=
  match n with
  | O => Some r
  | S k => r' ← tick r; ticks k r'
  end.

(** The backend calls of a run of DRAW commands on a canvas of size [w] by
    [h]: the first point begins a stroke unless one is in progress, every
    further point continues it. *)
Definition stroke_point (mk : float → float → float → Call)
    (w h : option float) (c : Command.t) : Call :=
  mk (Command.x c * toNumber w)%float (Command.y c * toNumber h)%float
     (Command.pressure c).

Definition stroke_calls (w h : option float) (drawing : bool)
    (points : list Command.t) : list Call :=
  match points with
  | [] => []
  | c :: rest =>
      stroke_point (if drawing then call_strokeTo else call_beginStroke) w h c
      :: map (stroke_point call_strokeTo w h) rest
  end.

(** The calls that draw. *)
Definition is_stroke_call (c : Call) : bool :=
  match c with
  | call_beginStroke _ _ _ | call_strokeTo _ _ _ | call_finalizeStroke => true
  | _ => false
  end.

(** What the loop of [setCanvasWidth] has done by the time it throws at an
    [undefined] slot: the layers before the slot have the new size and
    their [setSize] calls are made, the slot and the stack after it are as
    they were. On a stack without such a slot this is the whole loop. *)
Fixpoint forEach_setSize_thrown (w h : float) (ls : list (option DrwLayerBase.t))
    : list (option DrwLayerBase.t) * list Call :=
  match ls with
  | Some l :: rest =>
      (Some (setSize w h l) :: (forEach_setSize_thrown w h rest).1,
       call_setSize (DrwLayerBase.ident l) w h :: (forEach_setSize_thrown w h rest).2)
  | _ => (ls, [])
  end.

(** The engine a host holds after [setCanvasWidth(w)], also when the call
    threw: [width] and [height] are assigned before the loop starts, so
    they are written in any case. *)
Definition setCanvasWidth_thrown (w : float) (r : DrwRendererBase)
    : DrwRendererBase :=
  let h := (w / DrwHeader.aspectRatio (DrwParser.header (drw r)))%float in
  let r1 := set_size (Some w) (Some h) r in
  set_calls (calls r1 ++ (forEach_setSize_thrown w h (layers r1)).2)
    (set_layers (forEach_setSize_thrown w h (layers r1)).1 r1).

(** The states a host gets to through the public API, from the constructor
    on a session [d]. A [setCanvasWidth] that throws leaves the engine it
    has half resized. *)
Inductive reachable (fresh : ToolState.t) (d : DrwParser.t)
    : DrwRendererBase → Prop :=
  | reach_new r :
      new_DrwRendererBase fresh d = Some r → reachable fresh d r
  | reach_setCanvasWidth r w r' :
      reachable fresh d r → setCanvasWidth w r = Some r' → reachable fresh d r'
  | reach_seekCommand r target r' :
      reachable fresh d r → seekCommand target r = Some r' → reachable fresh d r'
  | reach_onUpdate r callback :
      reachable fresh d r → reachable fresh d (onUpdate callback r)
  | reach_playbackRate r newRate :
      reachable fresh d r → reachable fresh d (set_playbackRate newRate r)
  | reach_play r :
      reachable fresh d r → reachable fresh d (play r)
  | reach_pause r :
      reachable fresh d r → reachable fresh d (pause r)
  | reach_tick r r' :
      reachable fresh d r → tick r = Some r' → reachable fresh d r'
  | reach_setCanvasWidth_thrown r w :
      reachable fresh d r → setCanvasWidth w r = None →
      reachable fresh d (setCanvasWidth_thrown w r).

(** ** Sample sessions

    Concrete values to run the engine on. *)

Definition sample_toolState : ToolState.t :=
  ToolState.mk 0 0 0 0 false 0 0 0 0 1 0.

Definition sample_draw (px py pr : float) : Command.t :=
  Command.mk TYPE_DRAW px py pr None LAYERACTION_SET None false false 0 0 0 0 0.

Definition sample_drawEnd : Command.t :=
  Command.mk TYPE_DRAWEND 0 0 0 None LAYERACTION_SET None false false 0 0 0 0 0.

Definition sample_layerAction (a : LayerAction) (l : Z) : Command.t :=
  Command.mk TYPE_DRAWEND 0 0 0 (Some l) a None false false 0 0 0 0 0.

Definition sample_color (c : Color) : Command.t :=
  Command.mk TYPE_COLORCHANGE 0 0 0 None LAYERACTION_SET (Some c) false false 0 0 0 0 0.

Definition sample_flip (fx fy : bool) (u : Z) : Command.t :=
  Command.mk TYPE_COLORCHANGE 0 0 0 None LAYERACTION_SET None fx fy u 0 0 0 0.

Definition sample_unknown (k : Z) : Command.t :=
  Command.mk (TYPE_OTHER k) 0 0 0 None LAYERACTION_SET None false false 0 0 0 0 0.

(** A stroke of two points and its end. *)
Definition sample_stroke : DrwParser.t :=
  DrwParser.mk (DrwHeader.mk 1) [sample_draw 0.25 0.25 1; sample_draw 0.75 0.75 1; sample_drawEnd].

(** 450 stroke points. *)
Definition sample_long : DrwParser.t :=
  DrwParser.mk (DrwHeader.mk 1) (replicate 450 (sample_draw 0.5 0.5 1)).

(** The engine after the whole sample stroke was replayed. *)
Definition sample_stroke_done : DrwRendererBase :=
  Eval vm_compute in
    default (fresh_engine sample_toolState sample_stroke)
      (seekCommand 2 (fresh_engine sample_toolState sample_stroke)).

(** A log whose second entry has an unknown kind. *)
Definition sample_forward_compatible : DrwParser.t :=
  DrwParser.mk (DrwHeader.mk 1) [sample_draw 0.25 0.25 1; sample_unknown 9; sample_drawEnd].

(** A log that flips the canvas while naming user 3. *)
Definition sample_flipped : DrwParser.t :=
  DrwParser.mk (DrwHeader.mk 1) [sample_flip true true 3; sample_color 7].

(** A MOVE of the active layer to position 2, and the same followed by a
    SET to position 2. *)
Definition sample_move : DrwParser.t :=
  DrwParser.mk (DrwHeader.mk 1) [sample_layerAction LAYERACTION_NEWPOS 2].

Definition sample_move_set : DrwParser.t :=
  DrwParser.mk (DrwHeader.mk 1) [sample_layerAction LAYERACTION_NEWPOS 2;
                  sample_layerAction LAYERACTION_SET 2].

(** A stroke point, then a change of color. *)
Definition sample_recolored : DrwParser.t :=
  DrwParser.mk (DrwHeader.mk 1) [sample_draw 0.25 0.25 1; sample_color 7].

(** A log with no command. *)
Definition sample_empty : DrwParser.t := DrwParser.mk (DrwHeader.mk 1) [].

(** A SET beyond the five layers, then a MOVE. *)
Definition sample_move_beyond : DrwParser.t :=
  DrwParser.mk (DrwHeader.mk 1)
    [sample_layerAction LAYERACTION_SET 7; sample_layerAction LAYERACTION_NEWPOS 0].


(** The engine of [sample_move_beyond] at a width of 100 with both commands
    replayed, and what a [setCanvasWidth(300)] that throws leaves of it. *)
Definition sample_moved_beyond : DrwRendererBase :=
  Eval vm_compute in
    default (fresh_engine sample_toolState sample_move_beyond)
      (r ← setCanvasWidth 100 (fresh_engine sample_toolState sample_move_beyond);
       seekCommand 1 r).

Definition sample_resize_thrown : DrwRendererBase :=
  Eval vm_compute in setCanvasWidth_thrown 300 sample_moved_beyond.

(** A change of color on a command that also carries flip flags and a
    user. *)
Definition sample_color_with_flags : DrwParser.t :=
  DrwParser.mk (DrwHeader.mk 1)
    [Command.mk TYPE_COLORCHANGE 0 0 0 None LAYERACTION_SET (Some 7)
       true true 5 0 0 0 0].

(** The sample stroke with its first point replayed. *)
Definition sample_stroke_begun : DrwRendererBase :=
  Eval vm_compute in
    default (fresh_engine sample_toolState sample_stroke)
      (seekCommand 0 (fresh_engine sample_toolState sample_stroke)).

(** ** Basic facts *)

Arguments set_size : simpl never.
Arguments set_layers : simpl never.
Arguments set_userStates : simpl never.
Arguments set_playbackState : simpl never.
Arguments set_calls : simpl never.
Arguments set_cursor : simpl never.
Arguments set_frames : simpl never.
Arguments emit : simpl never.
Arguments with_toolState : simpl never.
Arguments moveLayer : simpl never.

Lemma toolState_with_toolState f r :
  toolState (with_toolState f r) = f <$> toolState r.
Proof.
  unfold toolState, with_toolState; simpl.
  rewrite lookup_alter_eq. by destruct (userStates r !! currentUser r).
Qed.

Lemma toolState_emit c r : toolState (emit c r) = toolState r.
Proof. reflexivity. Qed.

Lemma toolState_moveLayer a b r : toolState (moveLayer a b r) = toolState r.
Proof. reflexivity. Qed.

Lemma getCommand_in_range d i :
  0 ≤ i < DrwParser.numCommands d → is_Some (DrwParser.getCommand d i).
Proof.
  intros Hi. unfold DrwParser.getCommand, DrwParser.numCommands in *.
  rewrite decide_True by lia. apply lookup_lt_is_Some. lia.
Qed.

Lemma handled_trans i j r1 r2 r3 :
  handled j r1 r2 → handled i r2 r3 → handled i r1 r3.
Proof.
  intros [? ? ? ? ? Hp ? (cs & Hc & Hd)] [? ? ? ? ? Hp' ? (cs' & Hc' & Hd')].
  split; try congruence.
  - rewrite Hp', Hp. reflexivity.
  - exists (cs ++ cs'). split.
    + rewrite Hc', Hc. by rewrite <- app_assoc.
    + rewrite forallb_app, Hd, Hd'. reflexivity.
Qed.

Lemma handled_intro i r r1 cs :
  drw r1 = drw r → width r1 = width r → height r1 = height r →
  currentUser r1 = currentUser r → frames r1 = frames r →
  playbackState r1 = playbackState r → is_Some (toolState r1) →
  calls r1 = calls r ++ cs → forallb is_dispatch cs = true →
  handled i r (set_cursor i r1).
Proof.
  intros. split; try done.
  - unfold set_cursor, set_playbackState; simpl. congruence.
  - eauto.
Qed.

Lemma handleCommand_handled i r :
  is_Some (toolState r) → 0 ≤ i < DrwParser.numCommands (drw r) →
  ∃ r', handleCommand i r = Some r' ∧ handled i r r'.
Proof.
  intros [ts Hts] Hi.
  destruct (getCommand_in_range _ _ Hi) as [cmd Hcmd].
  unfold handleCommand. rewrite Hcmd; simpl.
  destruct (Command.type cmd).
  - (* DRAW *)
    rewrite Hts; simpl. eexists; split; [reflexivity|].
    destruct (ToolState.isDrawing ts); simpl;
      (eapply handled_intro;
       [done .. | rewrite toolState_with_toolState, toolState_emit, Hts; by eexists
        | reflexivity | reflexivity]).
  - (* DRAW_END *)
    destruct (Command.layer cmd) as [l|].
    + destruct (Command.layerAction cmd).
      * unfold setLayer. rewrite Hts; simpl. eexists; split; [reflexivity|].
        eapply (handled_intro _ _ _ []);
          [done .. | rewrite toolState_with_toolState, Hts; by eexists
           | by rewrite app_nil_r | reflexivity].
      * rewrite Hts; simpl. rewrite toolState_moveLayer, Hts; simpl.
        unfold setLayer. rewrite toolState_moveLayer, Hts; simpl.
        eexists; split; [reflexivity|].
        eapply (handled_intro _ _ _ []);
          [done .. | rewrite toolState_with_toolState, toolState_moveLayer, Hts; by eexists
           | by rewrite app_nil_r | reflexivity].
      * eexists; split; [reflexivity|].
        eapply handled_intro; [done .. | by eexists | reflexivity | reflexivity].
      * rewrite Hts; simpl. eexists; split; [reflexivity|].
        eapply handled_intro; [done .. | by eexists | reflexivity | reflexivity].
      * eexists; split; [reflexivity|].
        eapply (handled_intro _ _ _ []);
          [done .. | by eexists | by rewrite app_nil_r | reflexivity].
    + rewrite toolState_emit, Hts; simpl. eexists; split; [reflexivity|].
      eapply handled_intro;
        [done .. | rewrite toolState_with_toolState, toolState_emit, Hts; by eexists
         | reflexivity | reflexivity].
  - (* COLOR_CHANGE *)
    destruct (Command.color cmd) as [c|].
    + rewrite Hts; simpl. eexists; split; [reflexivity|].
      eapply handled_intro;
        [done .. | rewrite toolState_emit, toolState_with_toolState, Hts; by eexists
         | reflexivity | reflexivity].
    + destruct (Command.flipX cmd); [|destruct (Command.flipY cmd)];
        rewrite ?toolState_emit, Hts; simpl;
        (eexists; split; [reflexivity|]).
      * eapply handled_intro;
          [done .. | rewrite toolState_with_toolState, toolState_emit, Hts; by eexists
           | reflexivity | reflexivity].
      * eapply handled_intro;
          [done .. | rewrite toolState_with_toolState, toolState_emit, Hts; by eexists
           | reflexivity | reflexivity].
      * eapply (handled_intro _ _ _ []);
          [done .. | rewrite toolState_with_toolState, Hts; by eexists
           | by rewrite app_nil_r | reflexivity].
  - (* SIZE_CHANGE *)
    rewrite Hts; simpl. eexists; split; [reflexivity|].
    eapply handled_intro;
      [done .. | rewrite toolState_emit, toolState_with_toolState, Hts; by eexists
       | reflexivity | reflexivity].
  - (* any other kind *)
    eexists; split; [reflexivity|].
    eapply (handled_intro _ _ _ []);
      [done .. | by eexists | by rewrite app_nil_r | reflexivity].
Qed.

Lemma set_calls_id r : set_calls (calls r) r = r.
Proof. by destruct r. Qed.

Lemma set_currCommandIndex_id p :
  PlaybackState.set_currCommandIndex (PlaybackState.currCommandIndex p) p = p.
Proof. by destruct p. Qed.

Lemma resetLayers_calls n i r :
  resetLayers n i r =
  set_calls (calls r ++ (call_resetLayer <$> seqZ i (Z.of_nat n))) r.
Proof.
  revert i r. induction n as [|n IH]; intros i r.
  - rewrite seqZ_nil by done. cbn [resetLayers fmap list_fmap].
    by rewrite app_nil_r, set_calls_id.
  - cbn [resetLayers]. rewrite IH, (seqZ_cons i) by lia.
    replace (Z.pred (Z.of_nat (S n))) with (Z.of_nat n) by lia.
    replace (Z.succ i) with (i + 1) by lia.
    unfold emit, set_calls; simpl. by rewrite <- app_assoc.
Qed.

Lemma replay_applyCommands n s r :
  replay n s r = applyCommands (seqZ s (Z.of_nat n)) r.
Proof.
  revert s r. induction n as [|n IH]; intros s r.
  - by rewrite seqZ_nil by lia.
  - rewrite (seqZ_cons s) by lia.
    replace (Z.pred (Z.of_nat (S n))) with (Z.of_nat n) by lia.
    replace (Z.succ s) with (s + 1) by lia.
    cbn [replay applyCommands]. destruct (handleCommand s r); simpl; [apply IH|done].
Qed.

(** The replay loop over indices of the log handles every one of them. *)
Lemma replay_handled n s r :
  is_Some (toolState r) → 0 ≤ s →
  s + Z.of_nat n ≤ DrwParser.numCommands (drw r) →
  ∃ r', replay n s r = Some r' ∧
        match n with
        | O => r' = r
        | S _ => handled (s + Z.of_nat n - 1) r r'
        end.
Proof.
  revert s r. induction n as [|n IH]; intros s r Hts Hs Hn.
  - by exists r.
  - destruct (handleCommand_handled s r Hts) as (r1 & H1 & Hh1); [lia|].
    cbn [replay]. rewrite H1; simpl.
    destruct (IH (s + 1) r1) as (r' & Hr' & Hh').
    + apply Hh1.
    + lia.
    + rewrite (h_drw _ _ _ Hh1). lia.
    + exists r'. split; [done|]. destruct n.
      * subst r'. replace (s + Z.of_nat 1 - 1) with s by lia. done.
      * eapply handled_trans; [exact Hh1|].
        replace (s + Z.of_nat (S (S n)) - 1) with (s + 1 + Z.of_nat (S n) - 1) by lia.
        done.
Qed.

Lemma clamp_range x n : 0 < n → 0 ≤ clamp x n ≤ n - 1.
Proof. unfold clamp. lia. Qed.

Lemma clamp_idemp x n : clamp (clamp x n) n = clamp x n.
Proof. unfold clamp. lia. Qed.

Lemma seekCommand_seeked x r :
  wf r → ∃ r' cs, seekCommand x r = Some r' ∧ seeked x r r' cs.
Proof.
  intros [Hn Hc Hts]. unfold seekCommand. fold (clamp x (numCommands r)).
  remember (clamp x (numCommands r)) as t eqn:Ht.
  destruct (decide (t < currCommandIndex r)) as [Hlt|Hge].
  - (* backward: reset, then replay from 0 *)
    assert (0 ≤ t ≤ numCommands r - 1) as Hr by (unfold clamp in Ht; lia).
    rewrite resetLayers_calls.
    set (r0 := set_calls _ r).
    destruct (replay_handled (Z.to_nat (t - 0 + 1)) 0 r0) as (r2 & Hr2 & Hh);
      [done | lia | change (drw r0) with (drw r); lia |].
    rewrite Hr2; simpl. exists (fire r2).
    destruct (Z.to_nat (t - 0 + 1)) as [|k] eqn:Hk; [lia|].
    replace (0 + Z.of_nat (S k) - 1) with t in Hh by lia.
    destruct Hh as [? ? ? ? ? Hp ? (cs & Hcs & Hd)]. exists cs.
    split; [done|]. split; rewrite <- ?Ht; try done.
    + unfold fire, emit; simpl. rewrite Hcs. rewrite Hp. simpl.
      rewrite decide_True by done.
      subst r0. simpl. by rewrite <- !app_assoc.
    + lia.
  - (* forward: go on after the cursor *)
    destruct (replay_handled (Z.to_nat (t - (currCommandIndex r + 1) + 1))
                (currCommandIndex r + 1) r) as (r2 & Hr2 & Hh);
      [done | lia | unfold clamp in Ht; rewrite <- Hn; lia |].
    rewrite Hr2; simpl. exists (fire r2).
    destruct (Z.to_nat (t - (currCommandIndex r + 1) + 1)) as [|k] eqn:Hk.
    + subst r2. assert (t = currCommandIndex r) as Heq by (unfold clamp in Ht; lia).
      exists []. split; [done|]. split; rewrite <- ?Ht; try done.
      * simpl. rewrite Heq. unfold currCommandIndex.
        by rewrite set_currCommandIndex_id.
      * unfold fire, emit; simpl. by rewrite decide_False.
    + replace (currCommandIndex r + 1 + Z.of_nat (S k) - 1) with t in Hh by lia.
      destruct Hh as [? ? ? ? ? Hp ? (cs & Hcs & Hd)]. exists cs.
      split; [done|]. split; rewrite <- ?Ht; try done.
      * unfold fire, emit; simpl. rewrite Hcs, Hp. simpl.
        rewrite decide_False by done. by rewrite <- app_assoc.
      * lia.
Qed.

Lemma seeked_wf x r r' cs : wf r → seeked x r r' cs → wf r'.
Proof.
  intros [Hn Hc Hts] Hs. destruct Hs as [Hd _ _ _ _ Hp Ht _ _ _].
  unfold numCommands, currCommandIndex in *. split; unfold numCommands, currCommandIndex.
  - rewrite Hp, Hd. simpl. done.
  - rewrite Hp. simpl. unfold clamp. lia.
  - done.
Qed.

Lemma seeked_cursor x r r' cs :
  seeked x r r' cs → currCommandIndex r' = clamp x (numCommands r).
Proof. intros Hs. unfold currCommandIndex. by rewrite (s_playback _ _ _ _ Hs). Qed.

Lemma seeked_numCommands x r r' cs :
  seeked x r r' cs → numCommands r' = numCommands r.
Proof. intros Hs. unfold numCommands. by rewrite (s_playback _ _ _ _ Hs). Qed.

Lemma seekCommand_clamp_eq x y r :
  clamp x (numCommands r) = clamp y (numCommands r) →
  seekCommand x r = seekCommand y r.
Proof. unfold seekCommand, clamp. cbv zeta. by intros ->. Qed.

Lemma seekCommand_Some_applyCommands x r r' :
  seekCommand x r = Some r' →
  let t := clamp x (numCommands r) in
  ∃ r2, r' = fire r2 ∧
    if decide (t < currCommandIndex r)
    then applyCommands (seqZ 0 (t + 1))
           (set_calls (calls r ++ (call_resetLayer <$>
                                     seqZ 0 (Z.of_nat (length (layers r))))) r)
         = Some r2
    else applyCommands (seqZ (currCommandIndex r + 1) (t - currCommandIndex r)) r
         = Some r2.
Proof.
  unfold seekCommand. fold (clamp x (numCommands r)). cbv zeta.
  destruct (decide (clamp x (numCommands r) < currCommandIndex r)) as [Hlt|Hge].
  - rewrite resetLayers_calls, replay_applyCommands.
    destruct (applyCommands _ _) as [r2|] eqn:Hr2; simpl; [|done].
    intros [= <-]. exists r2. split; [done|].
    rewrite <- Hr2. f_equal.
    destruct (decide (0 ≤ clamp x (numCommands r) + 1)).
    + f_equal. lia.
    + rewrite !seqZ_nil; [done | lia | lia].
  - rewrite replay_applyCommands.
    destruct (applyCommands _ _) as [r2|] eqn:Hr2; simpl; [|done].
    intros [= <-]. exists r2. split; [done|].
    rewrite <- Hr2. f_equal.
    destruct (decide (0 ≤ clamp x (numCommands r) - currCommandIndex r)).
    + f_equal. lia.
    + rewrite !seqZ_nil; [done | lia | lia].
Qed.

Lemma new_calls_app r r' cs : calls r' = calls r ++ cs → new_calls r r' = cs.
Proof. intros H. unfold new_calls. rewrite H. apply drop_app_length. Qed.

Lemma dispatch_no_callback cs :
  forallb is_dispatch cs = true → List.filter is_callback cs = [].
Proof.
  induction cs as [|c cs IH]; [done|]. simpl.
  intros [Hc Hcs]%andb_prop. rewrite (IH Hcs). by destruct c.
Qed.

Lemma dispatch_no_reset cs :
  forallb is_dispatch cs = true → List.filter is_resetLayer cs = [].
Proof.
  induction cs as [|c cs IH]; [done|]. simpl.
  intros [Hc Hcs]%andb_prop. rewrite (IH Hcs). by destruct c.
Qed.

Lemma dispatch_no_reset_of i cs :
  forallb is_dispatch cs = true → List.filter (is_resetLayer_of i) cs = [].
Proof.
  induction cs as [|c cs IH]; [done|]. simpl.
  intros [Hc Hcs]%andb_prop. rewrite (IH Hcs). by destruct c.
Qed.

Lemma dispatch_all_backend cs :
  forallb is_dispatch cs = true → List.filter is_backend cs = cs.
Proof.
  induction cs as [|c cs IH]; [done|]. simpl.
  intros [Hc Hcs]%andb_prop. rewrite (IH Hcs). by destruct c.
Qed.

Lemma resets_no_callback (l : list Z) :
  List.filter is_callback (call_resetLayer <$> l) = [].
Proof. induction l as [|? ? IH]; [done|]. simpl. exact IH. Qed.

Lemma resets_all_reset (l : list Z) :
  List.filter is_resetLayer (call_resetLayer <$> l) = call_resetLayer <$> l.
Proof. induction l as [|? ? IH]; [done|]. simpl. f_equal. exact IH. Qed.

Lemma resets_count i s n :
  length (List.filter (is_resetLayer_of i) (call_resetLayer <$> seqZ s (Z.of_nat n)))
  = if decide (s ≤ i < s + Z.of_nat n) then 1%nat else 0%nat.
Proof.
  revert s. induction n as [|n IH]; intros s.
  - rewrite seqZ_nil by done. simpl. by rewrite decide_False by lia.
  - rewrite seqZ_cons by lia.
    replace (Z.pred (Z.of_nat (S n))) with (Z.of_nat n) by lia.
    cbn [fmap list_fmap List.filter is_resetLayer_of].
    case_bool_decide as Hi.
    + subst s. cbn [length]. rewrite IH.
      rewrite decide_False by lia. by rewrite decide_True by lia.
    + rewrite IH. repeat case_decide; (done || lia).
Qed.

Lemma new_DrwRendererBase_fresh fresh d :
  new_DrwRendererBase fresh d = Some (fresh_engine fresh d).
Proof. vm_compute. reflexivity. Qed.

Lemma toolState_fresh fresh d :
  toolState (fresh_engine fresh d) = Some (ToolState.set_layer 0 fresh).
Proof. unfold toolState, fresh_engine; simpl. by rewrite lookup_singleton_eq. Qed.

Lemma wf_fresh fresh d : wf (fresh_engine fresh d).
Proof.
  split.
  - reflexivity.
  - unfold currCommandIndex, numCommands; simpl.
    unfold DrwParser.numCommands. lia.
  - rewrite toolState_fresh. by eexists.
Qed.

(** ** Seeking *)

(** Well-formedness of a concrete engine, by evaluation. *)
Ltac wf_by_evaluation :=
  split;
  [ reflexivity
  | unfold currCommandIndex, numCommands; simpl;
    unfold DrwParser.numCommands; simpl; lia
  | eexists; vm_compute; reflexivity ].

(** C3. For every integer target, [seekCommand] on a well-formed engine
    returns with the cursor at the target clamped by
    [min (max 0 target) (numCommands - 1)], which lies in
    [[0, numCommands - 1]] whenever the log has a command; seeking to a
    target is seeking to its clamped value, so [numCommands + 1000] behaves
    as [numCommands - 1] and [-5] as [0]. *)
Theorem seekCommand_clamps_target (r : DrwRendererBase) (target : Z) :
  wf r →
  ∃ r', seekCommand target r = Some r'
      ∧ currCommandIndex r' = clamp target (numCommands r)
      ∧ (0 < numCommands r → 0 ≤ currCommandIndex r' ≤ numCommands r - 1)
      ∧ seekCommand (clamp target (numCommands r)) r = Some r'
      ∧ seekCommand (numCommands r + 1000) r = seekCommand (numCommands r - 1) r
      ∧ seekCommand (-5) r = seekCommand 0 r.
Proof.
  intros Hwf.
  destruct (seekCommand_seeked target r Hwf) as (r' & cs & Hr' & Hs).
  exists r'. split; [done|].
  pose proof (seeked_cursor _ _ _ _ Hs) as Hc.
  split; [done|]. split.
  { intros Hn. rewrite Hc. by apply clamp_range. }
  split.
  { rewrite <- Hr'. apply seekCommand_clamp_eq, clamp_idemp. }
  split; apply seekCommand_clamp_eq; unfold clamp; lia.
Qed.

Lemma seekCommand_clamps_target_witness :
  ∃ r', seekCommand 1002 (fresh_engine sample_toolState sample_stroke) = Some r'
      ∧ currCommandIndex r' = 2.
Proof.
  assert (Hwf : wf (fresh_engine sample_toolState sample_stroke))
    by wf_by_evaluation.
  destruct (seekCommand_clamps_target _ 1002 Hwf) as (r' & Hr' & Hc & _).
  exists r'. split; [exact Hr' | exact Hc].
Defined.

(** C4. Every [seekCommand] on a well-formed engine fires the registered
    update callback exactly once, as the last call it makes, however many
    commands it handles; when the clamped target is the cursor it handles
    none and the callback is the only call. *)
Theorem seekCommand_fires_callback_once (r : DrwRendererBase) (target : Z) :
  wf r →
  ∃ r' cs,
    seekCommand target r = Some r'
    ∧ new_calls r r' =
        cs ++ [call_updateComplete
                 (PlaybackState.updateCompleteCallback (playbackState r))]
    ∧ List.filter is_callback cs = []
    ∧ List.filter is_callback (new_calls r r') =
        [call_updateComplete
           (PlaybackState.updateCompleteCallback (playbackState r))]
    ∧ (clamp target (numCommands r) = currCommandIndex r → cs = []).
Proof.
  intros Hwf.
  destruct (seekCommand_seeked target r Hwf) as (r' & cs & Hr' & Hs).
  pose proof (s_calls _ _ _ _ Hs) as Hcalls.
  pose proof (dispatch_no_callback _ (s_dispatch _ _ _ _ Hs)) as Hcs.
  set (rs := if decide (clamp target (numCommands r) < currCommandIndex r)
             then call_resetLayer <$> seqZ 0 (Z.of_nat (length (layers r)))
             else []) in *.
  assert (Hrs : List.filter is_callback rs = []).
  { subst rs. case_decide; [apply resets_no_callback | done]. }
  exists r', (rs ++ cs). split; [done|].
  assert (Hnew : new_calls r r' =
                 (rs ++ cs) ++ [call_updateComplete
                   (PlaybackState.updateCompleteCallback (playbackState r))]).
  { apply new_calls_app. rewrite Hcalls. by rewrite <- !app_assoc. }
  split; [done|]. split.
  { by rewrite List.filter_app, Hrs, Hcs. }
  split.
  { rewrite Hnew, !List.filter_app, Hrs, Hcs. done. }
  intros Heq. pose proof (s_same _ _ _ _ Hs Heq) as ->.
  assert (new_calls r (fire r) =
            [call_updateComplete
               (PlaybackState.updateCompleteCallback (playbackState r))]) as Hf
    by (by apply new_calls_app).
  rewrite Hf in Hnew.
  destruct (rs ++ cs) as [|c l]; [done|].
  destruct l; discriminate Hnew.
Qed.

Lemma seekCommand_fires_callback_once_witness :
  ∃ r' cs,
    seekCommand 1 (onUpdate 7 (fresh_engine sample_toolState sample_stroke)) = Some r'
    ∧ new_calls (onUpdate 7 (fresh_engine sample_toolState sample_stroke)) r' =
        cs ++ [call_updateComplete 7]
    ∧ List.filter is_callback cs = [].
Proof.
  assert (Hwf : wf (onUpdate 7 (fresh_engine sample_toolState sample_stroke)))
    by wf_by_evaluation.
  destruct (seekCommand_fires_callback_once _ 1 Hwf) as (r' & cs & H1 & H2 & H3 & _).
  exists r', cs. split; [exact H1 | split; [exact H2 | exact H3]].
Defined.

(** C7. For every target, a [seekCommand] followed at once by a
    [seekCommand] to the same target makes no backend call in the second
    one: no layer is reset and no command is handled, the state is the one
    the first seek left and the update callback is the only call. *)
Theorem seekCommand_again_is_noop (r : DrwRendererBase) (target : Z) :
  wf r →
  ∃ r1 r2,
    seekCommand target r = Some r1
    ∧ seekCommand target r1 = Some r2
    ∧ r2 = fire r1
    ∧ new_calls r1 r2 =
        [call_updateComplete
           (PlaybackState.updateCompleteCallback (playbackState r1))]
    ∧ List.filter is_backend (new_calls r1 r2) = [].
Proof.
  intros Hwf.
  destruct (seekCommand_seeked target r Hwf) as (r1 & cs & Hr1 & Hs).
  pose proof (seeked_wf _ _ _ _ Hwf Hs) as Hwf1.
  destruct (seekCommand_seeked target r1 Hwf1) as (r2 & cs' & Hr2 & Hs').
  assert (Heq : clamp target (numCommands r1) = currCommandIndex r1).
  { by rewrite (seeked_numCommands _ _ _ _ Hs), (seeked_cursor _ _ _ _ Hs). }
  pose proof (s_same _ _ _ _ Hs' Heq) as ->.
  exists r1, (fire r1). split; [done|]. split; [done|]. split; [done|].
  assert (new_calls r1 (fire r1) =
            [call_updateComplete
               (PlaybackState.updateCompleteCallback (playbackState r1))]) as ->
    by (by apply new_calls_app).
  done.
Qed.

Lemma seekCommand_again_is_noop_witness :
  ∃ r1 r2,
    seekCommand 1 (fresh_engine sample_toolState sample_stroke) = Some r1
    ∧ seekCommand 1 r1 = Some r2
    ∧ List.filter is_backend (new_calls r1 r2) = [].
Proof.
  assert (Hwf : wf (fresh_engine sample_toolState sample_stroke))
    by wf_by_evaluation.
  destruct (seekCommand_again_is_noop _ 1 Hwf) as (r1 & r2 & H1 & H2 & _ & _ & H3).
  exists r1, r2. split; [exact H1 | split; [exact H2 | exact H3]].
Defined.

(** C2. On a well-formed engine, a [seekCommand] whose clamped target is
    before the cursor calls [resetLayer] once for every index of the layer
    stack, in order and before anything else, then handles the commands
    [0 .. target] from index 0; a [seekCommand] whose clamped target is at
    or after the cursor handles the commands after the cursor up to the
    target and resets no layer. Either way the update callback follows. *)
Theorem seekCommand_resets_and_replays (r : DrwRendererBase) (target : Z) :
  wf r →
  let t := clamp target (numCommands r) in
  let resets := call_resetLayer <$> seqZ 0 (Z.of_nat (length (layers r))) in
  ∃ r' r2 cs,
    seekCommand target r = Some r' ∧ r' = fire r2
    ∧ forallb is_dispatch cs = true
    ∧ if decide (t < currCommandIndex r) then
        applyCommands (seqZ 0 (t + 1)) (set_calls (calls r ++ resets) r) = Some r2
        ∧ new_calls r r2 = resets ++ cs
        ∧ List.filter is_resetLayer (new_calls r r') = resets
        ∧ ∀ i, 0 ≤ i < Z.of_nat (length (layers r)) →
            length (List.filter (is_resetLayer_of i) (new_calls r r')) = 1%nat
      else
        applyCommands (seqZ (currCommandIndex r + 1) (t - currCommandIndex r)) r
          = Some r2
        ∧ new_calls r r2 = cs
        ∧ List.filter is_resetLayer (new_calls r r') = [].
Proof.
  intros Hwf t resets.
  destruct (seekCommand_seeked target r Hwf) as (r' & cs & Hr' & Hs).
  destruct (seekCommand_Some_applyCommands _ _ _ Hr') as (r2 & -> & Happly).
  exists (fire r2), r2, cs. split; [done|]. split; [done|].
  pose proof (s_dispatch _ _ _ _ Hs) as Hd. split; [done|].
  pose proof (s_calls _ _ _ _ Hs) as Hcalls.
  fold t in Happly, Hcalls. fold resets in Hcalls.
  assert (Hcb : ∀ c, List.filter is_resetLayer [call_updateComplete c] = [])
    by done.
  destruct (decide (t < currCommandIndex r)) as [Hlt|Hge].
  - assert (Hr2 : calls r2 = calls r ++ resets ++ cs).
    { unfold fire, emit in Hcalls; simpl in Hcalls.
      rewrite !app_assoc in Hcalls. apply app_inj_tail in Hcalls as [-> _].
      by rewrite <- !app_assoc. }
    split; [done|]. split; [by apply new_calls_app|].
    rewrite (new_calls_app _ _ _ Hcalls).
    split.
    + rewrite !List.filter_app, (dispatch_no_reset _ Hd), Hcb.
      unfold resets. rewrite resets_all_reset. by rewrite !app_nil_r.
    + intros i Hi. rewrite !List.filter_app, !length_app.
      rewrite (dispatch_no_reset_of _ _ Hd). unfold resets.
      rewrite resets_count. rewrite decide_True by lia. done.
  - assert (Hr2 : calls r2 = calls r ++ cs).
    { unfold fire, emit in Hcalls; simpl in Hcalls.
      rewrite !app_assoc in Hcalls. by apply app_inj_tail in Hcalls as [-> _]. }
    split; [done|]. split; [by apply new_calls_app|].
    rewrite (new_calls_app _ _ _ Hcalls).
    by rewrite !List.filter_app, (dispatch_no_reset _ Hd), Hcb.
Qed.

Lemma sample_stroke_done_seeked :
  seekCommand 2 (fresh_engine sample_toolState sample_stroke)
  = Some sample_stroke_done.
Proof. vm_compute. reflexivity. Qed.

Lemma seekCommand_resets_and_replays_witness :
  ∃ r', seekCommand 0 sample_stroke_done = Some r'
      ∧ List.filter is_resetLayer (new_calls sample_stroke_done r')
        = call_resetLayer <$> [0; 1; 2; 3; 4].
Proof.
  assert (Hwf : wf sample_stroke_done) by wf_by_evaluation.
  destruct (seekCommand_resets_and_replays _ 0 Hwf)
    as (r' & r2 & cs & H1 & _ & _ & H).
  exists r'. split; [exact H1|].
  rewrite decide_True in H by (vm_compute; reflexivity).
  destruct H as (_ & _ & H & _). exact H.
Defined.

(** ** Command handling *)

(** C9. Handling a command whose kind is none of DRAW, DRAW_END,
    COLOR_CHANGE and SIZE_CHANGE succeeds and only moves the cursor: the
    user states (so every tool state), the layer stack and the canvas size
    are untouched and no call is made. *)
Theorem handleCommand_unknown_kind
    (r : DrwRendererBase) (cmdIndex : Z) (cmd : Command.t) (k : Z) :
  DrwParser.getCommand (drw r) cmdIndex = Some cmd →
  Command.type cmd = TYPE_OTHER k →
  ∃ r', handleCommand cmdIndex r = Some r'
      ∧ r' = set_cursor cmdIndex r
      ∧ userStates r' = userStates r
      ∧ toolState r' = toolState r
      ∧ layers r' = layers r
      ∧ width r' = width r ∧ height r' = height r
      ∧ calls r' = calls r
      ∧ currCommandIndex r' = cmdIndex.
Proof.
  intros Hcmd Hk. exists (set_cursor cmdIndex r).
  unfold handleCommand. rewrite Hcmd; simpl. rewrite Hk.
  repeat split; reflexivity.
Qed.

Lemma handleCommand_unknown_kind_witness :
  ∃ r', handleCommand 1 (fresh_engine sample_toolState sample_forward_compatible)
        = Some r'
      ∧ calls r' = calls (fresh_engine sample_toolState sample_forward_compatible)
      ∧ currCommandIndex r' = 1.
Proof.
  destruct (handleCommand_unknown_kind
              (fresh_engine sample_toolState sample_forward_compatible)
              1 (sample_unknown 9) 9 eq_refl eq_refl)
    as (r' & H1 & _ & _ & _ & _ & _ & _ & H2 & H3).
  exists r'. split; [exact H1 | split; [exact H2 | exact H3]].
Defined.

(** C6. Handling a COLOR_CHANGE command on an engine whose [toolState] is
    bound. With a color, the tool state's [color] becomes the command's,
    every other field of the tool state keeps its value (the [user] too,
    whatever the command carries), and [updateBrush] is the one call: no
    flip is made, whatever the flip flags. Without a color,
    [flip(true, false)] is called if [flipX] is set, else
    [flip(false, true)] if [flipY] is set, else nothing; the tool state's
    [user] becomes the command's and every other field, the [color] too,
    keeps its value. In both cases the write lands in the entry [toolState]
    aliases and nowhere else: the alias itself ([currentUser]) stays, no
    entry is made or removed, the other entries and every buffer are as
    they were, and the layer stack is untouched. *)
Theorem handleCommand_colorChange
    (r : DrwRendererBase) (cmdIndex : Z) (cmd : Command.t) (ts : ToolState.t) :
  DrwParser.getCommand (drw r) cmdIndex = Some cmd →
  Command.type cmd = TYPE_COLORCHANGE →
  toolState r = Some ts →
  ∃ r' ts',
    handleCommand cmdIndex r = Some r'
    ∧ toolState r' = Some ts'
    ∧ currentUser r' = currentUser r
    ∧ layers r' = layers r
    ∧ dom (userStates r') = dom (userStates r)
    ∧ (∀ u, u ≠ currentUser r → userStates r' !! u = userStates r !! u)
    ∧ (UserState.bufferWidth <$> userStates r' !! currentUser r)
      = (UserState.bufferWidth <$> userStates r !! currentUser r)
    ∧ (UserState.bufferHeight <$> userStates r' !! currentUser r)
      = (UserState.bufferHeight <$> userStates r !! currentUser r)
    ∧ match Command.color cmd with
      | Some c =>
          ts' = ToolState.mk (ToolState.layer ts) (ToolState.lastX ts)
                  (ToolState.lastY ts) (ToolState.pressure ts)
                  (ToolState.isDrawing ts) c (ToolState.brushRadius ts)
                  (ToolState.brushControl ts) (ToolState.brushType ts)
                  (ToolState.opacity ts) (ToolState.user ts)
          ∧ ToolState.color ts' = c
          ∧ new_calls r r' = [call_updateBrush]
      | None =>
          ts' = ToolState.mk (ToolState.layer ts) (ToolState.lastX ts)
                  (ToolState.lastY ts) (ToolState.pressure ts)
                  (ToolState.isDrawing ts) (ToolState.color ts)
                  (ToolState.brushRadius ts) (ToolState.brushControl ts)
                  (ToolState.brushType ts) (ToolState.opacity ts)
                  (Command.user cmd)
          ∧ ToolState.user ts' = Command.user cmd
          ∧ new_calls r r' =
              if Command.flipX cmd then [call_flip true false]
              else if Command.flipY cmd then [call_flip false true]
              else []
      end.
Proof.
  intros Hcmd Hk Hts. unfold handleCommand. rewrite Hcmd; simpl. rewrite Hk.
  assert (Hdrop : ∀ (l : list Call) c, drop (length l) (l ++ [c]) = [c])
    by (intros; apply drop_app_length).
  assert (Hwrite : ∀ f r0, currentUser r0 = currentUser r →
            userStates r0 = userStates r →
            toolState (with_toolState f r0) = Some (f ts)
            ∧ dom (userStates (with_toolState f r0)) = dom (userStates r)
            ∧ (∀ u, u ≠ currentUser r →
                 userStates (with_toolState f r0) !! u = userStates r !! u)
            ∧ (UserState.bufferWidth
                 <$> userStates (with_toolState f r0) !! currentUser r)
              = (UserState.bufferWidth <$> userStates r !! currentUser r)
            ∧ (UserState.bufferHeight
                 <$> userStates (with_toolState f r0) !! currentUser r)
              = (UserState.bufferHeight <$> userStates r !! currentUser r)).
  { intros f r0 Hu Hm.
    assert (Hts0 : toolState r0 = Some ts) by (unfold toolState; by rewrite Hu, Hm).
    split; [by rewrite toolState_with_toolState, Hts0|].
    unfold with_toolState; simpl. rewrite Hu, Hm.
    split; [apply dom_alter_L|].
    split; [intros u Hne; by apply lookup_alter_ne|].
    rewrite lookup_alter_eq.
    by destruct (userStates r !! currentUser r) as [[]|]. }
  destruct (Command.color cmd) as [c|].
  - rewrite Hts; simpl.
    destruct (Hwrite (ToolState.set_color c) r eq_refl eq_refl)
      as (W1 & W2 & W3 & W4 & W5).
    eexists _, _. split; [reflexivity|].
    split; [exact W1|]. do 2 (split; [done|]).
    split; [exact W2|]. split; [exact W3|]. split; [exact W4|].
    split; [exact W5|]. split; [done|]. split; [done|]. apply Hdrop.
  - destruct (Command.flipX cmd); [|destruct (Command.flipY cmd)];
      rewrite ?toolState_emit, Hts; simpl.
    + destruct (Hwrite (ToolState.set_user (Command.user cmd))
                  (emit (call_flip true false) r) eq_refl eq_refl)
        as (W1 & W2 & W3 & W4 & W5).
      eexists _, _. split; [reflexivity|].
      split; [exact W1|]. do 2 (split; [done|]).
      split; [exact W2|]. split; [exact W3|]. split; [exact W4|].
      split; [exact W5|]. split; [done|]. split; [done|]. apply Hdrop.
    + destruct (Hwrite (ToolState.set_user (Command.user cmd))
                  (emit (call_flip false true) r) eq_refl eq_refl)
        as (W1 & W2 & W3 & W4 & W5).
      eexists _, _. split; [reflexivity|].
      split; [exact W1|]. do 2 (split; [done|]).
      split; [exact W2|]. split; [exact W3|]. split; [exact W4|].
      split; [exact W5|]. split; [done|]. split; [done|]. apply Hdrop.
    + destruct (Hwrite (ToolState.set_user (Command.user cmd)) r eq_refl eq_refl)
        as (W1 & W2 & W3 & W4 & W5).
      eexists _, _. split; [reflexivity|].
      split; [exact W1|]. do 2 (split; [done|]).
      split; [exact W2|]. split; [exact W3|]. split; [exact W4|].
      split; [exact W5|]. split; [done|]. split; [done|].
      unfold new_calls; simpl. apply drop_all.
Qed.

Lemma handleCommand_colorChange_witness :
  (∃ r', handleCommand 0 (fresh_engine sample_toolState sample_color_with_flags)
         = Some r'
       ∧ (ToolState.color <$> toolState r') = Some 7
       ∧ (ToolState.user <$> toolState r') = Some 0
       ∧ new_calls (fresh_engine sample_toolState sample_color_with_flags) r'
         = [call_updateBrush])
  ∧ (∃ r', handleCommand 0 (fresh_engine sample_toolState sample_flipped) = Some r'
         ∧ currentUser r' = 0
         ∧ (ToolState.color <$> toolState r') = Some 0
         ∧ (ToolState.user <$> toolState r') = Some 3
         ∧ new_calls (fresh_engine sample_toolState sample_flipped) r'
           = [call_flip true false]).
Proof.
  split.
  - destruct (handleCommand_colorChange
                (fresh_engine sample_toolState sample_color_with_flags) 0
                (Command.mk TYPE_COLORCHANGE 0 0 0 None LAYERACTION_SET (Some 7)
                   true true 5 0 0 0 0)
                (ToolState.set_layer 0 sample_toolState)
                eq_refl eq_refl eq_refl)
      as (r' & ts' & H1 & H2 & _ & _ & _ & _ & _ & _ & H3 & _ & H4).
    exists r'. split; [exact H1|]. rewrite H2, H3.
    split; [reflexivity|]. split; [reflexivity | exact H4].
  - destruct (handleCommand_colorChange
                (fresh_engine sample_toolState sample_flipped) 0
                (sample_flip true true 3)
                (ToolState.set_layer 0 sample_toolState)
                eq_refl eq_refl eq_refl)
      as (r' & ts' & H1 & H2 & H5 & _ & _ & _ & _ & _ & H3 & _ & H4).
    exists r'. split; [exact H1|]. split; [exact H5|]. rewrite H2, H3.
    split; [reflexivity|]. split; [reflexivity | exact H4].
Defined.

(** ** Canvas size *)

Lemma forEach_setSize_defined w h (ls : list (option DrwLayerBase.t)) :
  Forall is_Some ls →
  forEach_setSize w h ls = Some (resized w h ls, setSize_calls w h ls).
Proof.
  induction 1 as [|o ls [l ->] _ IH]; [done|].
  cbn [forEach_setSize]. rewrite IH. reflexivity.
Qed.


(** C10. [setCanvasWidth w] on an engine whose layer slots all hold a layer
    sets the width to [w] and the height to [w / aspectRatio], calls
    [setSize] with these on every layer of the stack, in stack order, and
    changes nothing else: the playback state, the user states (every tool
    state, and every pixel buffer with the size it was made for), the alias
    into them, the session and the frame queue are as before. *)
Theorem setCanvasWidth_resizes_layers_only (r : DrwRendererBase) (w : float) :
  Forall is_Some (layers r) →
  let h := (w / DrwHeader.aspectRatio (DrwParser.header (drw r)))%float in
  ∃ r', setCanvasWidth w r = Some r'
      ∧ width r' = Some w
      ∧ height r' = Some h
      ∧ layers r' = resized w h (layers r)
      ∧ new_calls r r' = setSize_calls w h (layers r)
      ∧ playbackState r' = playbackState r
      ∧ userStates r' = userStates r
      ∧ currentUser r' = currentUser r
      ∧ drw r' = drw r
      ∧ frames r' = frames r.
Proof.
  intros Hls h. unfold setCanvasWidth. fold h.
  change (layers (set_size (Some w) (Some h) r)) with (layers r).
  rewrite (forEach_setSize_defined _ _ _ Hls); simpl.
  eexists. split; [reflexivity|].
  repeat (split; [reflexivity|]).
  split; [|repeat split; reflexivity].
  unfold new_calls; simpl. apply drop_app_length.
Qed.

Lemma setCanvasWidth_resizes_layers_only_witness :
  ∃ r', setCanvasWidth 300 (fresh_engine sample_toolState sample_stroke) = Some r'
      ∧ width r' = Some 300%float
      ∧ (UserState.bufferWidth <$> userStates r' !! 0) = Some None
      ∧ new_calls (fresh_engine sample_toolState sample_stroke) r'
        = (λ i, call_setSize i 300 300) <$> [0; 1; 2; 3; 4]%nat.
Proof.
  assert (Hls : Forall is_Some (layers (fresh_engine sample_toolState sample_stroke))).
  { simpl. repeat constructor; by eexists. }
  destruct (setCanvasWidth_resizes_layers_only
              (fresh_engine sample_toolState sample_stroke) 300 Hls)
    as (r' & H1 & H2 & _ & _ & H3 & _ & H4 & _).
  exists r'. split; [exact H1|]. split; [exact H2|].
  split; [rewrite H4; reflexivity | exact H3].
Defined.

(** ** Playback *)

(** One run of the playback loop on a well-formed engine. *)
Lemma playbackLoop_spec r :
  wf r →
  ∃ r', playbackLoop r = Some r'
      ∧ wf r'
      ∧ numCommands r' = numCommands r
      ∧ playbackRate r' = playbackRate r
      ∧ currCommandIndex r' =
          clamp (currCommandIndex r + playbackRate r) (numCommands r)
      ∧ if isPlaying r && bool_decide (currCommandIndex r' < numCommands r - 1)
        then isPlaying r' = true ∧ frames r' = S (frames r)
        else isPlaying r' = false ∧ frames r' = frames r.
Proof.
  intros Hwf.
  destruct (seekCommand_seeked (currCommandIndex r + playbackRate r) r Hwf)
    as (r1 & cs & Hr1 & Hs).
  pose proof (seeked_wf _ _ _ _ Hwf Hs) as [Hn1 Hc1 Ht1].
  pose proof (seeked_cursor _ _ _ _ Hs) as Hc.
  pose proof (seeked_numCommands _ _ _ _ Hs) as Hn.
  assert (Hp : isPlaying r1 = isPlaying r ∧ playbackRate r1 = playbackRate r).
  { unfold isPlaying, playbackRate. by rewrite (s_playback _ _ _ _ Hs). }
  destruct Hp as [Hp Hrate].
  pose proof (s_frames _ _ _ _ Hs) as Hf.
  unfold playbackLoop. rewrite Hr1; simpl. rewrite Hp, Hn.
  destruct (isPlaying r && bool_decide (currCommandIndex r1 < numCommands r - 1))
    eqn:Hb.
  - exists (requestAnimationFrame r1). split; [done|].
    split; [by split|]. split; [done|]. split; [done|]. split; [done|].
    change (currCommandIndex (requestAnimationFrame r1)) with (currCommandIndex r1).
    rewrite Hb. split; [|simpl; by rewrite Hf].
    change (isPlaying (requestAnimationFrame r1)) with (isPlaying r1).
    rewrite Hp. by apply andb_prop in Hb as [-> _].
  - exists (set_isPlaying false r1). split; [done|].
    split; [by split|]. split; [done|]. split; [done|]. split; [done|].
    change (currCommandIndex (set_isPlaying false r1)) with (currCommandIndex r1).
    rewrite Hb. by split.
Qed.

Lemma tick_spec r :
  wf r → frames r ≠ 0%nat →
  ∃ r', tick r = Some r'
      ∧ wf r'
      ∧ numCommands r' = numCommands r
      ∧ playbackRate r' = playbackRate r
      ∧ currCommandIndex r' =
          clamp (currCommandIndex r + playbackRate r) (numCommands r)
      ∧ if isPlaying r && bool_decide (currCommandIndex r' < numCommands r - 1)
        then isPlaying r' = true ∧ frames r' = frames r
        else isPlaying r' = false ∧ frames r' = pred (frames r).
Proof.
  intros [Hn Hc Ht] Hf. unfold tick.
  destruct (frames r) as [|k] eqn:Hk; [done|].
  assert (Hwf : wf (set_frames k r)) by (by split).
  destruct (playbackLoop_spec _ Hwf) as (r' & H1 & H2 & H3 & H4 & H5 & H6).
  exists r'. repeat (split; [done|]). exact H6.
Qed.

(** Every state the public API reaches is well-formed, and no public call
    on such a state fails for want of a command or of a bound tool state. *)
Lemma reachable_wf fresh d r : reachable fresh d r → wf r.
Proof.
  induction 1 as [r Hnew | r w r' _ IH Hset | r x r' _ IH Hseek
                  | r cb _ IH | r rate _ IH | r _ IH | r _ IH
                  | r r' _ IH Htick | r w _ IH Hthrown].
  - rewrite new_DrwRendererBase_fresh in Hnew. injection Hnew as <-.
    apply wf_fresh.
  - unfold setCanvasWidth in Hset.
    destruct (forEach_setSize _ _ _) as [[ls cs]|]; [|done].
    simpl in Hset. injection Hset as <-. destruct IH as [Hn Hc Ht]. by split.
  - destruct (seekCommand_seeked x r IH) as (r'' & cs & Hr'' & Hs).
    rewrite Hseek in Hr''. injection Hr'' as <-. by eapply seeked_wf.
  - destruct IH as [Hn Hc Ht]. by split.
  - destruct IH as [Hn Hc Ht]. by split.
  - destruct IH as [Hn Hc Ht]. by split.
  - destruct IH as [Hn Hc Ht]. by split.
  - unfold tick in Htick. destruct (frames r) as [|k] eqn:Hk.
    + by injection Htick as <-.
    + assert (Hwf : wf (set_frames k r)) by (destruct IH; by split).
      destruct (playbackLoop_spec _ Hwf) as (r'' & H1 & H2 & _).
      rewrite Htick in H1. by injection H1 as <-.
  - destruct IH as [Hn Hc Ht]. by split.
Qed.



(** ** Moving the active layer *)

(** What a DRAW_END command with MOVE does: the active layer is spliced out
    and in again at [layer], and [setLayer] is called with the index the
    tool state already holds, so the index stays and no call is made. *)
Lemma handleCommand_move r cmdIndex cmd l ts :
  DrwParser.getCommand (drw r) cmdIndex = Some cmd →
  Command.type cmd = TYPE_DRAWEND →
  Command.layer cmd = Some l →
  Command.layerAction cmd = LAYERACTION_NEWPOS →
  toolState r = Some ts →
  ∃ r', handleCommand cmdIndex r = Some r'
      ∧ layers r' = layers (moveLayer (ToolState.layer ts) l r)
      ∧ toolState r' = Some ts
      ∧ calls r' = calls r.
Proof.
  intros Hcmd Hk Hl Ha Hts. unfold handleCommand. rewrite Hcmd; simpl.
  rewrite Hk, Hl, Ha, Hts; simpl. rewrite toolState_moveLayer, Hts; simpl.
  unfold setLayer. rewrite toolState_moveLayer, Hts; simpl.
  eexists. split; [reflexivity|]. split; [done|]. split; [|done].
  change (toolState (with_toolState (ToolState.set_layer (ToolState.layer ts))
                       (moveLayer (ToolState.layer ts) l r)) = Some ts).
  rewrite toolState_with_toolState, toolState_moveLayer, Hts. by destruct ts.
Qed.

Lemma splice_start_in_range len i :
  0 ≤ i ≤ Z.of_nat len → splice_start len i = Z.to_nat i.
Proof. intros Hi. unfold splice_start. rewrite decide_False by lia. lia. Qed.

(** Within the stack, [moveLayer] keeps its length and puts the layer of
    position [src] at position [dst]. *)
Lemma moveLayer_in_range src dst r :
  0 ≤ src < Z.of_nat (length (layers r)) →
  0 ≤ dst < Z.of_nat (length (layers r)) →
  length (layers (moveLayer src dst r)) = length (layers r)
  ∧ layers (moveLayer src dst r) !! Z.to_nat dst = layers r !! Z.to_nat src.
Proof.
  intros Hs Hd. unfold moveLayer. cbv zeta.
  change (layers (set_layers ?l _)) with l.
  rewrite (splice_start_in_range _ src) by lia.
  set (l := layers r) in *. set (s := Z.to_nat src).
  assert (Hlen1 : length (take s l ++ drop (S s) l) = (length l - 1)%nat).
  { rewrite length_app, length_take, length_drop. lia. }
  rewrite Hlen1, (splice_start_in_range _ dst) by lia.
  set (d := Z.to_nat dst). set (l1 := take s l ++ drop (S s) l) in *.
  destruct (lookup_lt_is_Some_2 l s) as [o Ho]; [lia|].
  rewrite Ho; simpl. split.
  - rewrite length_app, length_take; simpl. rewrite length_drop. lia.
  - rewrite lookup_app_r by (rewrite length_take; lia).
    rewrite length_take, Hlen1.
    replace (d - d `min` (length l - 1))%nat with 0%nat by lia. done.
Qed.

(** C5. Handling a DRAW_END command with a layer and the MOVE action, on an
    engine whose [toolState] is bound, splices the active layer out of the
    stack and in again at position [layer], makes no call, and re-affirms
    the active layer pointer by calling [setLayer] with the index the tool
    state already holds: the pointer keeps its index. Within the stack, the
    stack keeps its length and the moved layer sits at position [layer]. A
    SET to [layer] handled next puts the pointer on that position, so on
    the moved layer. *)
Theorem handleCommand_move_then_set
    (r : DrwRendererBase) (cmdIndex : Z) (cmd : Command.t) (l : Z)
    (ts : ToolState.t) :
  DrwParser.getCommand (drw r) cmdIndex = Some cmd →
  Command.type cmd = TYPE_DRAWEND →
  Command.layer cmd = Some l →
  Command.layerAction cmd = LAYERACTION_NEWPOS →
  toolState r = Some ts →
  ∃ r', handleCommand cmdIndex r = Some r'
      ∧ layers r' = layers (moveLayer (ToolState.layer ts) l r)
      ∧ toolState r' = Some ts
      ∧ calls r' = calls r
      ∧ (0 ≤ ToolState.layer ts < Z.of_nat (length (layers r)) →
         0 ≤ l < Z.of_nat (length (layers r)) →
         length (layers r') = length (layers r)
         ∧ layers r' !! Z.to_nat l = layers r !! Z.to_nat (ToolState.layer ts))
      ∧ (∀ next cmd',
           DrwParser.getCommand (drw r) next = Some cmd' →
           Command.type cmd' = TYPE_DRAWEND →
           Command.layer cmd' = Some l →
           Command.layerAction cmd' = LAYERACTION_SET →
           ∃ r'', handleCommand next r' = Some r''
                ∧ toolState r'' = Some (ToolState.set_layer l ts)
                ∧ layers r'' = layers r').
Proof.
  intros Hcmd Hk Hl Ha Hts.
  destruct (handleCommand_move r cmdIndex cmd l ts Hcmd Hk Hl Ha Hts)
    as (r' & Hr' & Hlay & Hts' & Hcalls).
  exists r'. split; [done|]. split; [done|]. split; [done|]. split; [done|].
  split.
  - intros Hs Hd. rewrite Hlay. by apply moveLayer_in_range.
  - intros next cmd' Hcmd' Hk' Hl' Ha'.
    assert (Hdrw : drw r' = drw r).
    { unfold handleCommand in Hr'. rewrite Hcmd in Hr'; simpl in Hr'.
      rewrite Hk, Hl, Ha, Hts in Hr'; simpl in Hr'.
      rewrite toolState_moveLayer, Hts in Hr'; simpl in Hr'.
      unfold setLayer in Hr'. rewrite toolState_moveLayer, Hts in Hr'.
      simpl in Hr'. by injection Hr' as <-. }
    unfold handleCommand. rewrite Hdrw, Hcmd'; simpl.
    rewrite Hk', Hl', Ha'. unfold setLayer. rewrite Hts'; simpl.
    eexists. split; [reflexivity|]. split; [|done].
    change (toolState (with_toolState (ToolState.set_layer l) r')
            = Some (ToolState.set_layer l ts)).
    by rewrite toolState_with_toolState, Hts'.
Qed.

Lemma handleCommand_move_then_set_witness :
  ∃ r' r'',
    handleCommand 0 (fresh_engine sample_toolState sample_move_set) = Some r'
    ∧ idents (layers r') = [Some 1; Some 2; Some 0; Some 3; Some 4]%nat
    ∧ (ToolState.layer <$> toolState r') = Some 0
    ∧ activeLayer r' = Some 1%nat
    ∧ handleCommand 1 r' = Some r''
    ∧ (ToolState.layer <$> toolState r'') = Some 2
    ∧ activeLayer r'' = Some 0%nat.
Proof.
  destruct (handleCommand_move_then_set
              (fresh_engine sample_toolState sample_move_set) 0
              (sample_layerAction LAYERACTION_NEWPOS 2) 2
              (ToolState.set_layer 0 sample_toolState)
              eq_refl eq_refl eq_refl eq_refl eq_refl)
    as (r' & H1 & H2 & H3 & _ & _ & H4).
  destruct (H4 1 (sample_layerAction LAYERACTION_SET 2)
              eq_refl eq_refl eq_refl eq_refl)
    as (r'' & H5 & H6 & H7).
  exists r', r''. split; [exact H1|].
  split; [rewrite H2; vm_compute; reflexivity|].
  split; [rewrite H3; reflexivity|].
  split; [unfold activeLayer; rewrite H3, H2; vm_compute; reflexivity|].
  split; [exact H5|]. split; [rewrite H6; reflexivity|].
  unfold activeLayer. rewrite H6, H7, H2. vm_compute. reflexivity.
Defined.

(** The pointer does not follow the moved layer. On a fresh engine (five
    layers, active layer index 0, so the layer made first is active) a
    DRAW_END command with MOVE to position 2 puts the layer made first at
    stack position 2 and leaves the active layer index at 0, where the
    layer made second now sits: the pointer is on the layer that took the
    old index, not on the moved layer at its new position. *)
Lemma move_pointer_not_on_moved_layer :
  ∃ r1,
    activeLayer (fresh_engine sample_toolState sample_move) = Some 0%nat
    ∧ seekCommand 0 (fresh_engine sample_toolState sample_move) = Some r1
    ∧ idents (layers r1) = [Some 1; Some 2; Some 0; Some 3; Some 4]%nat
    ∧ (ToolState.layer <$> toolState r1) = Some 0
    ∧ activeLayer r1 = Some 1%nat
    ∧ activeLayer r1 ≠ Some 0%nat.
Proof.
  eexists. split; [vm_compute; reflexivity|].
  split; [vm_compute; reflexivity|]. split; [vm_compute; reflexivity|].
  split; [vm_compute; reflexivity|]. split; [vm_compute; reflexivity|].
  vm_compute. discriminate.
Qed.

(** ** Seeking backward *)

(** C1. The specification asks that after any seek the state is that of
    the commands up to the cursor applied in order. On the log
    [DRAW(0.25, 0.25, 1); COLOR_CHANGE(7)] with a canvas of width 100,
    [seekCommand 1] followed by [seekCommand 0] (the backward seek
    [seekPrev] makes at cursor 1) ends with the cursor at 0 as
    [seekCommand 0] alone does, but not in the state of command 0 applied
    from scratch: after the five [resetLayer] calls the replay continues
    the old stroke ([strokeTo] instead of [beginStroke], the drawing flag
    having stayed set) and the tool state keeps color 7 of command 1. *)
Theorem backward_seek_keeps_tool_state :
  ∃ r0 r1 back direct,
    setCanvasWidth 100 (fresh_engine sample_toolState sample_recolored) = Some r0
    ∧ seekCommand 1 r0 = Some r1
    ∧ seekCommand 0 r1 = Some back
    ∧ seekPrev r1 = Some back
    ∧ seekCommand 0 r0 = Some direct
    ∧ currCommandIndex back = 0 ∧ currCommandIndex direct = 0
    ∧ new_calls r1 back =
        (call_resetLayer <$> [0; 1; 2; 3; 4])
        ++ [call_strokeTo 25 25 1; call_updateComplete 0]
    ∧ new_calls r0 direct = [call_beginStroke 25 25 1; call_updateComplete 0]
    ∧ (ToolState.color <$> toolState back) = Some 7
    ∧ (ToolState.color <$> toolState direct) = Some 0.
Proof.
  eexists _, _, _, _. split; [vm_compute; reflexivity|].
  split; [vm_compute; reflexivity|]. split; [vm_compute; reflexivity|].
  split; [vm_compute; reflexivity|].
  split; [vm_compute; reflexivity|]. split; [vm_compute; reflexivity|].
  split; [vm_compute; reflexivity|]. split; [vm_compute; reflexivity|].
  split; [vm_compute; reflexivity|]. split; vm_compute; reflexivity.
Qed.

(** ** Seeking forward in one step or in many *)

(** Command handling does not look at the calls made so far. *)
Lemma handleCommand_set_calls i r c :
  handleCommand i (set_calls c r) =
  (λ r', set_calls (c ++ new_calls r r') r') <$> handleCommand i r.
Proof.
  assert (Hd1 : ∀ (l : list Call) x, drop (length l) (l ++ [x]) = [x])
    by (intros; apply drop_app_length).
  assert (Hd0 : ∀ l : list Call, drop (length l) l = []) by apply drop_all.
  unfold handleCommand, setLayer.
  change (drw (set_calls c r)) with (drw r).
  change (toolState (set_calls c r)) with (toolState r).
  destruct (DrwParser.getCommand (drw r) i) as [cmd|]; [simpl|done].
  destruct (Command.type cmd).
  - destruct (toolState r) as [ts|]; [simpl|done].
    destruct (ToolState.isDrawing ts); simpl; unfold new_calls; simpl;
      by rewrite Hd1.
  - destruct (Command.layer cmd) as [l|].
    + destruct (Command.layerAction cmd).
      * destruct (toolState r) as [ts|]; [simpl|done].
        unfold new_calls; simpl. by rewrite Hd0, app_nil_r.
      * destruct (toolState r) as [ts|] eqn:Hts; [simpl|done].
        rewrite !toolState_moveLayer.
        change (toolState (set_calls c r)) with (toolState r).
        rewrite Hts; simpl.
        unfold new_calls; simpl. by rewrite Hd0, app_nil_r.
      * simpl. unfold new_calls; simpl. by rewrite Hd1.
      * destruct (toolState r) as [ts|]; [simpl|done].
        unfold new_calls; simpl. by rewrite Hd1.
      * simpl. unfold new_calls; simpl. by rewrite Hd0, app_nil_r.
    + rewrite !toolState_emit.
      change (toolState (set_calls c r)) with (toolState r).
      destruct (toolState r) as [ts|]; [simpl|done].
      unfold new_calls; simpl. by rewrite Hd1.
  - destruct (Command.color cmd) as [col|].
    + destruct (toolState r) as [ts|]; [simpl|done].
      unfold new_calls; simpl. by rewrite Hd1.
    + destruct (Command.flipX cmd); [|destruct (Command.flipY cmd)];
        rewrite ?toolState_emit;
        change (toolState (set_calls c r)) with (toolState r);
        (destruct (toolState r) as [ts|]; [simpl|done]);
        unfold new_calls; simpl; by rewrite ?Hd1, ?Hd0, ?app_nil_r.
  - destruct (toolState r) as [ts|]; [simpl|done].
    unfold new_calls; simpl. by rewrite Hd1.
  - simpl. unfold new_calls; simpl. by rewrite Hd0, app_nil_r.
Qed.

Lemma set_calls_set_calls c c' r : set_calls c (set_calls c' r) = set_calls c r.
Proof. reflexivity. Qed.

Lemma handleCommand_same_rendering i r1 r2 r1' :
  same_rendering r1 r2 → handleCommand i r1 = Some r1' →
  ∃ r2', handleCommand i r2 = Some r2' ∧ same_rendering r1' r2'.
Proof.
  intros [Hst Hcs] H1.
  rewrite <- (set_calls_id r1), <- (set_calls_set_calls _ [] r1) in H1.
  rewrite handleCommand_set_calls in H1.
  destruct (handleCommand i (set_calls [] r1)) as [b|] eqn:Hb; [|done].
  simpl in H1. injection H1 as <-.
  exists (set_calls (calls r2 ++ new_calls (set_calls [] r2) b) b). split.
  - rewrite <- (set_calls_id r2) at 1. rewrite <- (set_calls_set_calls _ [] r2).
    rewrite handleCommand_set_calls, <- Hst, Hb. done.
  - split; [done|]. simpl. rewrite !List.filter_app, Hcs, Hst. done.
Qed.

Lemma fire_same_rendering r1 r2 : same_rendering r1 r2 → same_rendering r1 (fire r2).
Proof.
  intros [Hst Hcs]. split; [done|].
  unfold fire, emit; simpl. rewrite List.filter_app, <- Hcs. simpl.
  by rewrite app_nil_r.
Qed.

(** Seeking to the command right after the cursor handles that command. *)
Lemma seekCommand_next s r :
  currCommandIndex r = s - 1 → 0 ≤ s < numCommands r →
  seekCommand s r = fire <$> handleCommand s r.
Proof.
  intros Hc Hs. unfold seekCommand. fold (clamp s (numCommands r)).
  replace (clamp s (numCommands r)) with s by (unfold clamp; lia).
  rewrite decide_False by lia. rewrite Hc.
  replace (Z.to_nat (s - (s - 1 + 1) + 1)) with 1%nat by lia.
  replace (s - 1 + 1) with s by lia. cbn [replay].
  by destruct (handleCommand s r).
Qed.

Lemma seekEach_same_rendering n : ∀ s r1 r2 r1',
  same_rendering r1 r2 →
  is_Some (toolState r2) →
  numCommands r2 = DrwParser.numCommands (drw r2) →
  currCommandIndex r2 = s - 1 → 0 ≤ s →
  s + Z.of_nat n ≤ numCommands r2 →
  applyCommands (seqZ s (Z.of_nat n)) r1 = Some r1' →
  ∃ r2', seekEach (seqZ s (Z.of_nat n)) r2 = Some r2' ∧ same_rendering r1' r2'.
Proof.
  induction n as [|n IH]; intros s r1 r2 r1' Hsame Hts Hn Hc Hs Hle.
  - rewrite seqZ_nil by done. intros [= <-]. by exists r2.
  - rewrite seqZ_cons by lia.
    replace (Z.pred (Z.of_nat (S n))) with (Z.of_nat n) by lia.
    replace (Z.succ s) with (s + 1) by lia.
    cbn [applyCommands seekEach].
    destruct (handleCommand s r1) as [r1a|] eqn:H1; [simpl|done].
    intros Hrest.
    destruct (handleCommand_same_rendering _ _ _ _ Hsame H1) as (r2a & H2 & Hsame_a).
    destruct (handleCommand_handled s r2 Hts) as (r2b & H2b & Hh); [lia|].
    rewrite H2 in H2b. injection H2b as <-.
    rewrite seekCommand_next, H2 by (done || lia). simpl.
    apply (IH (s + 1) r1a (fire r2a) r1'); try done.
    + by apply fire_same_rendering.
    + apply Hh.
    + change (numCommands (fire r2a)) with (numCommands r2a).
      change (drw (fire r2a)) with (drw r2a).
      unfold numCommands. rewrite (h_playback _ _ _ Hh), (h_drw _ _ _ Hh). exact Hn.
    + change (currCommandIndex (fire r2a)) with (currCommandIndex r2a).
      unfold currCommandIndex. rewrite (h_playback _ _ _ Hh). simpl. lia.
    + lia.
    + change (numCommands (fire r2a)) with (numCommands r2a).
      unfold numCommands in *. rewrite (h_playback _ _ _ Hh). simpl. lia.
Qed.

(** Forward seeks converge whatever their granularity: for every index [i]
    of the log, [seekCommand i] on a fresh engine and [seekCommand 0], ...,
    [seekCommand i] in order on a fresh engine end in the same state and
    make the same backend calls in the same order. *)
Lemma seek_fresh_same_as_stepwise fresh d i :
  0 ≤ i < DrwParser.numCommands d →
  ∃ once stepwise,
    seekCommand i (fresh_engine fresh d) = Some once
    ∧ seekEach (seqZ 0 (i + 1)) (fresh_engine fresh d) = Some stepwise
    ∧ same_rendering once stepwise.
Proof.
  intros Hi. set (r := fresh_engine fresh d).
  pose proof (wf_fresh fresh d) as Hwf. fold r in Hwf.
  destruct (seekCommand_seeked i r Hwf) as (once & cs & Honce & _).
  destruct (seekCommand_Some_applyCommands _ _ _ Honce) as (r2 & -> & Happly).
  assert (Hcl : clamp i (numCommands r) = i).
  { unfold clamp. change (numCommands r) with (DrwParser.numCommands d). lia. }
  cbv zeta in Happly. rewrite Hcl in Happly.
  change (currCommandIndex r) with (-1) in Happly.
  rewrite decide_False in Happly by lia.
  replace (-1 + 1) with 0 in Happly by lia.
  replace (i - -1) with (Z.of_nat (Z.to_nat (i + 1))) in Happly by lia.
  destruct (seekEach_same_rendering (Z.to_nat (i + 1)) 0 r r r2)
    as (stepwise & Hstep & Hsame); try done.
  - change (numCommands r) with (DrwParser.numCommands d). lia.
  - exists (fire r2), stepwise. split; [done|].
    replace (i + 1) with (Z.of_nat (Z.to_nat (i + 1))) at 1 by lia.
    split; [done|].
    destruct Hsame as [Hst Hcs]. split; [done|].
    unfold fire, emit; simpl. rewrite List.filter_app, Hcs. simpl.
    by rewrite app_nil_r.
Qed.


(** * Further properties of the engine *)

(** ** The user registry *)

Lemma setUser_spec
    (fresh : ToolState.t) (userIndex : Z) (r : DrwRendererBase) :
  let r' := setUser fresh userIndex r in
  currentUser r' = userIndex
  ∧ userStates r' =
      match userStates r !! userIndex with
      | Some _ => userStates r
      | None =>
          <[userIndex := UserState.mk fresh (width r) (height r)]> (userStates r)
      end
  ∧ toolState r' =
      Some (match userStates r !! userIndex with
            | Some us => UserState.toolState us
            | None => fresh
            end)
  ∧ (∀ k us, userStates r !! k = Some us → userStates r' !! k = Some us)
  ∧ dom (userStates r') = dom (userStates r) ∪ {[userIndex]}
  ∧ layers r' = layers r ∧ calls r' = calls r
  ∧ playbackState r' = playbackState r.
Proof.
  cbv zeta. unfold setUser, toolState.
  destruct (userStates r !! userIndex) as [us|] eqn:Hus; simpl.
  - rewrite Hus. repeat split; try done.
    apply (elem_of_dom_2 (D := gset Z)) in Hus.
    rewrite union_comm_L. symmetry. apply subseteq_union_1_L.
    by apply singleton_subseteq_l.
  - rewrite lookup_insert_eq. repeat split; try done.
    + intros k us Hk. rewrite lookup_insert_ne; [done|congruence].
    + rewrite dom_insert_L. apply union_comm_L.
Qed.

(** [setUser] makes an entry only for a user that has none, with the fresh
    tool state and a buffer for the canvas size of that moment; an entry
    that exists is found as it was left (its tool state is not reset); no
    entry is ever overwritten or removed; and afterwards [toolState] is
    bound, to the entry of the user named. *)
Theorem setUser_registry
    (fresh : ToolState.t) (userIndex : Z) (r : DrwRendererBase) :
  (userStates r !! userIndex = None →
   userStates (setUser fresh userIndex r) !! userIndex
   = Some (UserState.mk fresh (width r) (height r)))
  ∧ (∀ k us, userStates r !! k = Some us →
             userStates (setUser fresh userIndex r) !! k = Some us)
  ∧ dom (userStates (setUser fresh userIndex r))
    = dom (userStates r) ∪ {[userIndex]}
  ∧ toolState (setUser fresh userIndex r)
    = UserState.toolState <$> userStates (setUser fresh userIndex r) !! userIndex
  ∧ is_Some (toolState (setUser fresh userIndex r)).
Proof.
  pose proof (setUser_spec fresh userIndex r) as (Hc & Hm & Ht & Hk & Hd & _).
  cbv zeta in *. split.
  { intros Hnone. rewrite Hm, Hnone. apply lookup_insert_eq. }
  split; [done|]. split; [done|]. split.
  { unfold toolState. by rewrite Hc. }
  rewrite Ht. by eexists.
Qed.

(** Tool states are per user: with user [u] current, switching to another
    user [v], writing through [toolState] there, and switching back finds
    the tool state of [u] as it was left. *)
Theorem setUser_switch_back
    (fresh : ToolState.t) (u v : Z) (f : ToolState.t → ToolState.t)
    (r : DrwRendererBase) :
  currentUser r = u → u ≠ v → is_Some (toolState r) →
  toolState (setUser fresh u (with_toolState f (setUser fresh v r)))
  = toolState r
  ∧ toolState (with_toolState f (setUser fresh v r))
    = Some (f (match userStates r !! v with
               | Some us => UserState.toolState us
               | None => fresh
               end)).
Proof.
  intros Hu Hne [ts Hts].
  pose proof (setUser_spec fresh v r) as (Hc & Hm & Ht & Hk & _).
  cbv zeta in *. remember (setUser fresh v r) as r1 eqn:Hr1. clear Hr1.
  split.
  - unfold toolState in Hts. rewrite Hu in Hts.
    destruct (userStates r !! u) as [us|] eqn:Hus; [|done].
    assert (Hus2 : userStates (with_toolState f r1) !! u = Some us).
    { change (userStates (with_toolState f r1))
        with (alter (UserState.map_toolState f) (currentUser r1) (userStates r1)).
      rewrite Hc, lookup_alter_ne by congruence. by apply Hk. }
    pose proof (setUser_spec fresh u (with_toolState f r1)) as (_ & _ & Ht2 & _).
    cbv zeta in Ht2. rewrite Ht2, Hus2. unfold toolState. by rewrite Hu, Hus.
  - by rewrite toolState_with_toolState, Ht.
Qed.

(** ** The layer stack *)

(** A list with the element at [s] spliced out and put back at [d]. *)
Lemma splice_out_in {A} (l : list A) (s d : nat) (o : A) :
  l !! s = Some o →
  take d (take s l ++ drop (S s) l) ++ o :: drop d (take s l ++ drop (S s) l)
  ≡ₚ l.
Proof.
  intros Ho. rewrite <- Permutation_middle, take_drop.
  rewrite <- (take_drop_middle l s o Ho) at 3. by rewrite <- Permutation_middle.
Qed.

Lemma splice_start_lt len i :
  (0 < len)%nat → i < Z.of_nat len → (splice_start len i < len)%nat.
Proof. intros Hl Hi. unfold splice_start. case_decide; lia. Qed.

Lemma splice_start_le len i : (splice_start len i ≤ len)%nat.
Proof. unfold splice_start. case_decide; lia. Qed.

(** [moveLayer] with a source index below the length of a non-empty stack
    (negative indices count from the end, as [splice] has it) only reorders
    the stack: whatever the destination index, the result is a permutation
    of the stack and has its length; no layer is dropped or duplicated. *)
Theorem moveLayer_permutes (src dst : Z) (r : DrwRendererBase) :
  layers r ≠ [] → src < Z.of_nat (length (layers r)) →
  layers (moveLayer src dst r) ≡ₚ layers r
  ∧ length (layers (moveLayer src dst r)) = length (layers r)
  ∧ userStates (moveLayer src dst r) = userStates r
  ∧ calls (moveLayer src dst r) = calls r.
Proof.
  intros Hne Hs.
  assert (Hperm : layers (moveLayer src dst r) ≡ₚ layers r).
  { unfold moveLayer. cbv zeta. change (layers (set_layers ?l _)) with l.
    assert (0 < length (layers r))%nat as Hpos
      by (destruct (layers r); [done | simpl; lia]).
    pose proof (splice_start_lt _ _ Hpos Hs) as Hlt.
    destruct (lookup_lt_is_Some_2 _ _ Hlt) as [o Ho].
    rewrite Ho; simpl. by apply splice_out_in. }
  split; [done|]. split; [by rewrite Hperm|]. done.
Qed.

(** The stack [moveLayer] leaves, as a function of the stack it finds. *)
Lemma moveLayer_layers src dst r :
  layers (moveLayer src dst r) = spliced src dst (layers r).
Proof. reflexivity. Qed.

Lemma drop_S_middle {A} (a b : list A) (o : A) (d : nat) :
  length a = d → drop (S d) (a ++ o :: b) = b.
Proof.
  intros <-. rewrite cons_middle, app_assoc.
  apply drop_app_length'. rewrite length_app. simpl. lia.
Qed.

Lemma spliced_in_range {A} (src dst : Z) (l : list (option A)) o :
  0 ≤ src < Z.of_nat (length l) → 0 ≤ dst < Z.of_nat (length l) →
  l !! Z.to_nat src = Some o →
  spliced src dst l =
  take (Z.to_nat dst) (take (Z.to_nat src) l ++ drop (S (Z.to_nat src)) l)
  ++ o :: drop (Z.to_nat dst) (take (Z.to_nat src) l ++ drop (S (Z.to_nat src)) l).
Proof.
  intros Hs Hd Ho. unfold spliced.
  rewrite (splice_start_in_range _ src) by lia. rewrite Ho.
  assert (length (take (Z.to_nat src) l ++ drop (S (Z.to_nat src)) l)
          = (length l - 1)%nat) as ->.
  { rewrite length_app, length_take, length_drop. lia. }
  by rewrite (splice_start_in_range _ dst) by lia.
Qed.

(** Within the stack, moving a layer from [src] to [dst] and then from
    [dst] back to [src] restores the stack. *)
Theorem moveLayer_round_trip (src dst : Z) (r : DrwRendererBase) :
  0 ≤ src < Z.of_nat (length (layers r)) →
  0 ≤ dst < Z.of_nat (length (layers r)) →
  layers (moveLayer dst src (moveLayer src dst r)) = layers r.
Proof.
  intros Hs Hd. rewrite !moveLayer_layers.
  generalize dependent (layers r). clear r. intros l Hs Hd.
  destruct (lookup_lt_is_Some_2 l (Z.to_nat src)) as [o Ho]; [lia|].
  rewrite (spliced_in_range src dst l o Hs Hd Ho).
  set (s := Z.to_nat src) in *. set (d := Z.to_nat dst) in *.
  set (l1 := take s l ++ drop (S s) l).
  assert (Hl1 : length l1 = (length l - 1)%nat).
  { unfold l1. rewrite length_app, length_take, length_drop. lia. }
  assert (Hd1 : length (take d l1) = d) by (rewrite length_take; lia).
  assert (Hlen2 : length (take d l1 ++ o :: drop d l1) = length l).
  { rewrite length_app, Hd1; simpl. rewrite length_drop. lia. }
  rewrite (spliced_in_range dst src _ o); rewrite ?Hlen2; try lia.
  - fold s d.
    rewrite (take_app_length' (take d l1)) by done.
    rewrite (drop_S_middle (take d l1)) by done.
    rewrite take_drop. unfold l1.
    rewrite take_app_length' by (rewrite length_take; lia).
    rewrite drop_app_length' by (rewrite length_take; lia).
    by apply take_drop_middle.
  - fold d. apply list_lookup_middle. by rewrite Hd1.
Qed.

(** Negative source indices count from the end of the stack. *)
Theorem moveLayer_negative_source (src dst : Z) (r : DrwRendererBase) :
  - Z.of_nat (length (layers r)) ≤ src < 0 →
  moveLayer src dst r = moveLayer (Z.of_nat (length (layers r)) + src) dst r
  ∧ mjoin (layers r !! Z.to_nat (Z.of_nat (length (layers r)) + src))
    = mjoin (layers (moveLayer src 0 r) !! 0%nat).
Proof.
  intros Hs.
  assert (Heq : splice_start (length (layers r)) src
                = splice_start (length (layers r)) (Z.of_nat (length (layers r)) + src)).
  { unfold splice_start. rewrite decide_True, decide_False by lia. lia. }
  split.
  - unfold moveLayer. cbv zeta. by rewrite Heq.
  - rewrite moveLayer_layers. unfold spliced. cbv zeta.
    rewrite Heq, (splice_start_in_range _ (_ + src)) by lia.
    assert (∀ n, splice_start n 0 = 0%nat) as ->.
    { intros n. unfold splice_start. rewrite decide_False by lia. lia. }
    reflexivity.
Qed.

(** ** Layer actions *)

Lemma handleCommand_set r cmdIndex cmd l ts :
  DrwParser.getCommand (drw r) cmdIndex = Some cmd →
  Command.type cmd = TYPE_DRAWEND →
  Command.layer cmd = Some l →
  Command.layerAction cmd = LAYERACTION_SET →
  toolState r = Some ts →
  ∃ r', handleCommand cmdIndex r = Some r'
      ∧ toolState r' = Some (ToolState.set_layer l ts)
      ∧ layers r' = layers r
      ∧ calls r' = calls r.
Proof.
  intros Hcmd Hk Hl Ha Hts. unfold handleCommand. rewrite Hcmd; simpl.
  rewrite Hk, Hl, Ha. unfold setLayer. rewrite Hts; simpl.
  eexists. split; [reflexivity|]. split; [|done].
  change (toolState (with_toolState (ToolState.set_layer l) r)
          = Some (ToolState.set_layer l ts)).
  by rewrite toolState_with_toolState, Hts.
Qed.

(** A SET stores whatever index the command carries: there is no bounds
    check, and for an index outside the stack the active layer pointer is
    on no layer. Nothing else changes and no call is made. *)
Theorem handleCommand_set_unchecked
    (r : DrwRendererBase) (cmdIndex : Z) (cmd : Command.t) (l : Z)
    (ts : ToolState.t) :
  DrwParser.getCommand (drw r) cmdIndex = Some cmd →
  Command.type cmd = TYPE_DRAWEND →
  Command.layer cmd = Some l →
  Command.layerAction cmd = LAYERACTION_SET →
  toolState r = Some ts →
  ∃ r', handleCommand cmdIndex r = Some r'
      ∧ toolState r' = Some (ToolState.set_layer l ts)
      ∧ layers r' = layers r
      ∧ calls r' = calls r
      ∧ (¬ 0 ≤ l < Z.of_nat (length (layers r)) → activeLayer r' = None).
Proof.
  intros Hcmd Hk Hl Ha Hts.
  destruct (handleCommand_set r cmdIndex cmd l ts Hcmd Hk Hl Ha Hts)
    as (r' & Hr' & Hts' & Hlay & Hc).
  exists r'. split; [done|]. split; [done|]. split; [done|]. split; [done|].
  intros Hout. unfold activeLayer. rewrite Hts', Hlay; simpl.
  case_decide; [|done].
  rewrite lookup_ge_None_2 by lia. done.
Qed.



(** A DRAW_END command that carries a layer is a layer action and nothing
    else: whatever the action, it makes no drawing call and leaves the
    drawing flag, the last point, the color and the brush as they are; of
    the tool state only the active layer index can change. *)
Theorem handleCommand_layerAction_keeps_stroke
    (r : DrwRendererBase) (cmdIndex : Z) (cmd : Command.t) (l : Z)
    (ts : ToolState.t) :
  DrwParser.getCommand (drw r) cmdIndex = Some cmd →
  Command.type cmd = TYPE_DRAWEND →
  Command.layer cmd = Some l →
  toolState r = Some ts →
  ∃ r' l',
    handleCommand cmdIndex r = Some r'
    ∧ toolState r' = Some (ToolState.set_layer l' ts)
    ∧ List.filter is_stroke_call (new_calls r r') = []
    ∧ (length (new_calls r r') ≤ 1)%nat.
Proof.
  intros Hcmd Hk Hl Hts.
  assert (Hid : ToolState.set_layer (ToolState.layer ts) ts = ts) by (by destruct ts).
  assert (Hd1 : ∀ (cs : list Call) x, drop (length cs) (cs ++ [x]) = [x])
    by (intros; apply drop_app_length).
  assert (Hd0 : ∀ cs : list Call, drop (length cs) cs = []) by apply drop_all.
  destruct (Command.layerAction cmd) eqn:Ha.
  - destruct (handleCommand_set r cmdIndex cmd l ts Hcmd Hk Hl Ha Hts)
      as (r' & Hr' & Hts' & _ & Hc).
    exists r', l. unfold new_calls. rewrite Hc, Hd0. repeat split; (done || (simpl; lia)).
  - destruct (handleCommand_move r cmdIndex cmd l ts Hcmd Hk Hl Ha Hts)
      as (r' & Hr' & _ & Hts' & Hc).
    exists r', (ToolState.layer ts). unfold new_calls. rewrite Hc, Hd0, Hid.
    repeat split; (done || (simpl; lia)).
  - unfold handleCommand. rewrite Hcmd; simpl. rewrite Hk, Hl, Ha.
    eexists _, (ToolState.layer ts). split; [reflexivity|].
    rewrite Hid. unfold new_calls; simpl. rewrite Hd1. repeat split; (done || (simpl; lia)).
  - unfold handleCommand. rewrite Hcmd; simpl. rewrite Hk, Hl, Ha, Hts; simpl.
    eexists _, (ToolState.layer ts). split; [reflexivity|].
    rewrite Hid. unfold new_calls; simpl. rewrite Hd1. repeat split; (done || (simpl; lia)).
  - unfold handleCommand. rewrite Hcmd; simpl. rewrite Hk, Hl, Ha.
    eexists _, (ToolState.layer ts). split; [reflexivity|].
    rewrite Hid. unfold new_calls; simpl. rewrite Hd0. repeat split; (done || (simpl; lia)).
Qed.

(** ** Strokes *)

Lemma mul_nan_r (v : float) : (v * nan)%float = nan.
Proof.
  apply Prim2SF_inj. rewrite mul_spec.
  change (Prim2SF nan) with SpecFloat.S754_nan.
  by destruct (Prim2SF v).
Qed.

Lemma handleCommand_draw r cmdIndex cmd ts :
  DrwParser.getCommand (drw r) cmdIndex = Some cmd →
  Command.type cmd = TYPE_DRAW →
  toolState r = Some ts →
  handleCommand cmdIndex r =
  Some (set_cursor cmdIndex
          (with_toolState
             (ToolState.set_stroke
                (Command.x cmd * toNumber (width r))
                (Command.y cmd * toNumber (height r)) (Command.pressure cmd))
             (emit (stroke_point
                      (if ToolState.isDrawing ts then call_strokeTo
                       else call_beginStroke) (width r) (height r) cmd) r))).
Proof.
  intros Hcmd Hk Hts. unfold handleCommand. rewrite Hcmd; simpl.
  rewrite Hk, Hts; simpl. by destruct (ToolState.isDrawing ts).
Qed.

Lemma handleCommand_drawEnd r cmdIndex cmd ts :
  DrwParser.getCommand (drw r) cmdIndex = Some cmd →
  Command.type cmd = TYPE_DRAWEND →
  Command.layer cmd = None →
  toolState r = Some ts →
  handleCommand cmdIndex r =
  Some (set_cursor cmdIndex
          (with_toolState (ToolState.set_isDrawing false)
             (emit call_finalizeStroke r))).
Proof.
  intros Hcmd Hk Hl Hts. unfold handleCommand. rewrite Hcmd; simpl.
  rewrite Hk, Hl, toolState_emit, Hts. reflexivity.
Qed.

Lemma applyCommands_app a b r :
  applyCommands (a ++ b) r = applyCommands a r ≫= applyCommands b.
Proof.
  revert r. induction a as [|i a IH]; intros r; [done|].
  cbn [app applyCommands]. destruct (handleCommand i r); simpl; [apply IH|done].
Qed.

(** A run of DRAW commands, handled from a bound tool state. *)
Lemma applyCommands_draws points : ∀ s r ts,
  0 ≤ s →
  (∀ k c, points !! k = Some c →
          DrwParser.getCommand (drw r) (s + Z.of_nat k) = Some c) →
  Forall (λ c, Command.type c = TYPE_DRAW) points →
  toolState r = Some ts →
  ∃ r' ts',
    applyCommands (seqZ s (Z.of_nat (length points))) r = Some r'
    ∧ calls r' =
        calls r ++ stroke_calls (width r) (height r) (ToolState.isDrawing ts) points
    ∧ toolState r' = Some ts'
    ∧ ToolState.isDrawing ts' = ToolState.isDrawing ts || bool_decide (points ≠ [])
    ∧ drw r' = drw r ∧ layers r' = layers r
    ∧ PlaybackState.updateCompleteCallback (playbackState r')
      = PlaybackState.updateCompleteCallback (playbackState r).
Proof.
  induction points as [|c points IH]; intros s r ts Hs Hget Hall Hts.
  - exists r, ts. rewrite seqZ_nil by done. simpl.
    rewrite app_nil_r, orb_false_r. by repeat split.
  - apply Forall_cons in Hall as [Hc Hall].
    rewrite seqZ_cons by (simpl; lia).
    replace (Z.pred (Z.of_nat (length (c :: points))))
      with (Z.of_nat (length points)) by (simpl; lia).
    replace (Z.succ s) with (s + 1) by lia. cbn [applyCommands].
    assert (Hc0 : DrwParser.getCommand (drw r) s = Some c).
    { specialize (Hget 0%nat c eq_refl). by rewrite Z.add_0_r in Hget. }
    rewrite (handleCommand_draw r s c ts Hc0 Hc Hts); simpl.
    set (r1 := set_cursor s _).
    assert (Hts1 : toolState r1 =
              Some (ToolState.set_stroke (Command.x c * toNumber (width r))
                      (Command.y c * toNumber (height r)) (Command.pressure c) ts)).
    { unfold r1.
      change (toolState (set_cursor s ?x)) with (toolState x).
      by rewrite toolState_with_toolState, toolState_emit, Hts. }
    destruct (IH (s + 1) r1 _ ltac:(lia)
                ltac:(intros k c' Hk; specialize (Hget (S k) c' Hk);
                      change (drw r1) with (drw r);
                      replace (s + 1 + Z.of_nat k) with (s + Z.of_nat (S k)) by lia;
                      exact Hget)
                Hall Hts1)
      as (r' & ts' & Hr' & Hcalls & Hts' & Hdr & Hdrw & Hlay & Hcb).
    exists r', ts'. split; [done|]. split.
    { rewrite Hcalls. unfold r1, emit; simpl. rewrite <- app_assoc. f_equal.
      simpl. f_equal. by destruct points. }
    split; [done|]. split.
    { rewrite Hdr, orb_true_r. done. }
    by repeat split.
Qed.

(** A whole stroke: with the cursor right before a run of DRAW commands
    that a DRAW_END without layer closes, and no stroke in progress,
    seeking to the DRAW_END makes one [beginStroke] for the first point, one
    [strokeTo] for every further point, one [finalizeStroke], and the update
    callback, in this order, each point scaled by the canvas size; the
    stroke is then no longer in progress and the layer stack is untouched.
    With no point at all the [finalizeStroke] is still made. *)
Theorem seekCommand_through_stroke
    (r : DrwRendererBase) (before points after : list Command.t)
    (endCmd : Command.t) (ts : ToolState.t) :
  wf r →
  DrwParser.commands (drw r) = before ++ points ++ endCmd :: after →
  Forall (λ c, Command.type c = TYPE_DRAW) points →
  Command.type endCmd = TYPE_DRAWEND → Command.layer endCmd = None →
  currCommandIndex r = Z.of_nat (length before) - 1 →
  toolState r = Some ts → ToolState.isDrawing ts = false →
  ∃ r', seekCommand (Z.of_nat (length before + length points)) r = Some r'
      ∧ new_calls r r' =
          stroke_calls (width r) (height r) false points
          ++ [call_finalizeStroke;
              call_updateComplete
                (PlaybackState.updateCompleteCallback (playbackState r))]
      ∧ (ToolState.isDrawing <$> toolState r') = Some false
      ∧ layers r' = layers r
      ∧ currCommandIndex r' = Z.of_nat (length before + length points).
Proof.
  intros Hwf Hlog Hall Hk Hl Hcur Hts Hnd.
  set (s := Z.of_nat (length before)). set (n := length points).
  assert (Hn : numCommands r
               = Z.of_nat (length before + length points + 1 + length after)).
  { rewrite (wf_numCommands _ Hwf). unfold DrwParser.numCommands.
    rewrite Hlog, !length_app. simpl. lia. }
  destruct (seekCommand_seeked (Z.of_nat (length before + length points)) r Hwf)
    as (r' & cs & Hr' & Hs).
  assert (Hcl : clamp (Z.of_nat (length before + length points)) (numCommands r)
                = s + Z.of_nat n).
  { unfold clamp, s, n. lia. }
  destruct (seekCommand_Some_applyCommands _ _ _ Hr') as (r2 & -> & Happly).
  cbv zeta in Happly. rewrite Hcl, decide_False in Happly by lia.
  rewrite Hcur in Happly. fold s in Happly.
  replace (s - 1 + 1) with s in Happly by lia.
  replace (s + Z.of_nat n - (s - 1)) with (Z.of_nat n + 1) in Happly by lia.
  rewrite seqZ_app, applyCommands_app in Happly by lia.
  assert (Hget : ∀ k c, (points ++ endCmd :: after) !! k = Some c →
            DrwParser.getCommand (drw r) (s + Z.of_nat k) = Some c).
  { intros k c Hkc. unfold DrwParser.getCommand. rewrite decide_True by lia.
    rewrite Hlog, lookup_app_r by lia.
    replace (Z.to_nat (s + Z.of_nat k) - length before)%nat with k by lia. done. }
  destruct (applyCommands_draws points s r ts) as
    (r1 & ts1 & Hr1 & Hcalls1 & Hts1 & Hdr1 & Hdrw1 & Hlay1 & Hcb1);
    [lia | | done | done |].
  { intros k c Hkc. apply Hget. by apply lookup_app_l_Some. }
  fold n in Hr1. rewrite Hr1 in Happly. simpl in Happly.
  replace (Z.of_nat 0 + (s + Z.of_nat n)) with (s + Z.of_nat n) in Happly by lia.
  assert (Hend : DrwParser.getCommand (drw r1) (s + Z.of_nat n) = Some endCmd).
  { rewrite Hdrw1. apply Hget. unfold n. by apply list_lookup_middle. }
  rewrite (handleCommand_drawEnd r1 _ endCmd ts1 Hend Hk Hl Hts1) in Happly.
  simpl in Happly. injection Happly as <-.
  eexists. split; [exact Hr'|].
  split; [|split; [|split]].
  - apply new_calls_app. unfold fire, emit; simpl. rewrite Hcalls1, Hnd, Hcb1.
    by rewrite <- !app_assoc.
  - change (toolState (fire (set_cursor ?i ?x))) with (toolState x).
    by rewrite toolState_with_toolState, toolState_emit, Hts1.
  - done.
  - unfold currCommandIndex; simpl. unfold s, n. lia.
Qed.

(** Until [setCanvasWidth] has been called the canvas has no size, and a
    DRAW command hands NaN coordinates to the backend and records NaN as
    the last point, whatever coordinates the command carries. *)
Theorem handleCommand_draw_without_canvas_size
    (r : DrwRendererBase) (cmdIndex : Z) (cmd : Command.t) (ts : ToolState.t) :
  width r = None → height r = None →
  DrwParser.getCommand (drw r) cmdIndex = Some cmd →
  Command.type cmd = TYPE_DRAW →
  toolState r = Some ts →
  ∃ r', handleCommand cmdIndex r = Some r'
      ∧ new_calls r r' =
          [(if ToolState.isDrawing ts then call_strokeTo else call_beginStroke)
             nan nan (Command.pressure cmd)]
      ∧ (ToolState.lastX <$> toolState r') = Some nan
      ∧ (ToolState.lastY <$> toolState r') = Some nan.
Proof.
  intros Hw Hh Hcmd Hk Hts.
  rewrite (handleCommand_draw r cmdIndex cmd ts Hcmd Hk Hts).
  eexists. split; [reflexivity|].
  unfold stroke_point. rewrite Hw, Hh. simpl. rewrite !mul_nan_r.
  split.
  { apply new_calls_app. by destruct (ToolState.isDrawing ts). }
  change (toolState (set_cursor ?i ?x)) with (toolState x).
  rewrite toolState_with_toolState, toolState_emit, Hts. by split.
Qed.

(** A splice never loses a layer, never duplicates one and never shortens
    the stack: the defined slots keep their layers, up to order. *)
Lemma spliced_defined {A} (src dst : Z) (l : list (option A)) :
  omap (M:=list) id (spliced src dst l) ≡ₚ omap (M:=list) id l.
Proof.
  destruct (decide (splice_start (length l) src < length l)%nat) as [Hlt|Hge].
  - destruct (lookup_lt_is_Some_2 _ _ Hlt) as [o Ho].
    unfold spliced. rewrite Ho; simpl.
    by rewrite (splice_out_in l _ _ o Ho).
  - pose proof (splice_start_le (length l) src).
    unfold spliced.
    rewrite (lookup_ge_None_2 l (splice_start (length l) src)) by lia. simpl.
    rewrite (take_ge l (splice_start (length l) src)) by lia.
    rewrite (drop_ge l (S (splice_start (length l) src))) by lia.
    rewrite app_nil_r, omap_app. simpl. rewrite <- omap_app. by rewrite take_drop.
Qed.

Lemma spliced_length {A} (src dst : Z) (l : list (option A)) :
  (length l ≤ length (spliced src dst l))%nat.
Proof.
  unfold spliced. rewrite length_app. simpl. rewrite length_take, length_drop.
  set (l1 := take _ l ++ drop _ l).
  assert (length l - 1 ≤ length l1)%nat.
  { unfold l1. rewrite length_app, length_take, length_drop. lia. }
  pose proof (splice_start_le (length l1) dst). lia.
Qed.

(** ** What command handling can write *)

Lemma map_toolState_id (u : UserState.t) : UserState.map_toolState id u = u.
Proof. by destruct u. Qed.

Lemma alter_map_toolState_id (k : Z) (m : gmap Z UserState.t) :
  alter (UserState.map_toolState id) k m = m.
Proof. apply alter_id. intros. apply map_toolState_id. Qed.

(** Of the registry, [handleCommand] writes at most the tool state of the
    entry [toolState] aliases; of the stack, it changes at most the order,
    by one splice; the canvas size, the session, the alias and the frame
    queue are not touched. *)
Lemma handleCommand_writes i r r' :
  handleCommand i r = Some r' →
  (∃ f, userStates r' =
        alter (UserState.map_toolState f) (currentUser r) (userStates r))
  ∧ (layers r' = layers r ∨ ∃ src dst, layers r' = spliced src dst (layers r))
  ∧ currentUser r' = currentUser r
  ∧ width r' = width r ∧ height r' = height r.
Proof.
  intros H. unfold handleCommand, setLayer in H.
  destruct (DrwParser.getCommand (drw r) i) as [cmd|]; simpl in H; [|done].
  assert (Hno : ∀ x : DrwRendererBase,
            userStates x = userStates r → currentUser x = currentUser r →
            ∃ f, userStates x =
                 alter (UserState.map_toolState f) (currentUser r) (userStates r)).
  { intros x -> _. exists id. by rewrite alter_map_toolState_id. }
  cbv [mbind option_bind] in H.
  repeat (match type of H with
          | context [match ?x with _ => _ end] =>
              lazymatch x with
              | context [match _ with _ => _ end] => fail
              | _ => destruct x eqn:?; simpl in H
              end
          end);
    try done; injection H as <-;
    (split; [first [ by eexists | by apply Hno ] |]);
    (split; [first [ by left | right; by eexists _, _ ] |]);
    by repeat split.
Qed.

Lemma applyCommands_writes idxs : ∀ r r',
  applyCommands idxs r = Some r' →
  (∃ f, userStates r' =
        alter (UserState.map_toolState f) (currentUser r) (userStates r))
  ∧ omap (M:=list) id (layers r') ≡ₚ omap (M:=list) id (layers r)
  ∧ (length (layers r) ≤ length (layers r'))%nat
  ∧ currentUser r' = currentUser r
  ∧ width r' = width r ∧ height r' = height r.
Proof.
  induction idxs as [|i idxs IH]; intros r r'.
  - intros [= <-]. split; [|done].
    exists id. by rewrite alter_map_toolState_id.
  - cbn [applyCommands]. destruct (handleCommand i r) as [r1|] eqn:H1; [simpl|done].
    intros Hrest.
    destruct (handleCommand_writes _ _ _ H1) as ((f & Hf) & Hlay & Hu & Hw & Hh).
    destruct (IH _ _ Hrest) as ((g & Hg) & Hlay' & Hlen' & Hu' & Hw' & Hh').
    split; [|split; [|split]].
    + exists (g ∘ f). rewrite Hg, Hu, Hf, alter_alter_eq.
      apply alter_ext. intros [] _. reflexivity.
    + rewrite Hlay'. destruct Hlay as [->|(src & dst & ->)]; [done|].
      apply spliced_defined.
    + etrans; [|exact Hlen']. destruct Hlay as [->|(src & dst & ->)]; [done|].
      apply spliced_length.
    + repeat split; congruence.
Qed.

Lemma seekCommand_writes x r r' :
  seekCommand x r = Some r' →
  (∃ f, userStates r' =
        alter (UserState.map_toolState f) (currentUser r) (userStates r))
  ∧ omap (M:=list) id (layers r') ≡ₚ omap (M:=list) id (layers r)
  ∧ (length (layers r) ≤ length (layers r'))%nat
  ∧ currentUser r' = currentUser r
  ∧ width r' = width r ∧ height r' = height r.
Proof.
  intros H.
  destruct (seekCommand_Some_applyCommands _ _ _ H) as (r2 & -> & Happly).
  cbv zeta in Happly.
  destruct (decide (clamp x (numCommands r) < currCommandIndex r));
    by apply applyCommands_writes in Happly.
Qed.

Lemma forEach_setSize_Some w h ls : ∀ ls' cs,
  forEach_setSize w h ls = Some (ls', cs) →
  ls' = resized w h ls ∧ cs = setSize_calls w h ls ∧ Forall is_Some ls.
Proof.
  induction ls as [|[l|] ls IH]; intros ls' cs H.
  - by injection H as <- <-.
  - cbn [forEach_setSize] in H.
    destruct (forEach_setSize w h ls) as [[ls1 cs1]|]; [simpl in H|done].
    injection H as <- <-. destruct (IH _ _ eq_refl) as (-> & -> & Hall).
    split; [done|]. split; [done|]. constructor; [by eexists|done].
  - done.
Qed.

Lemma omap_resized w h (ls : list (option DrwLayerBase.t)) :
  omap (M:=list) id (resized w h ls) = setSize w h <$> omap (M:=list) id ls.
Proof.
  induction ls as [|[l|] ls IH]; [done| |].
  - change (setSize w h l :: omap (M:=list) id (resized w h ls)
            = setSize w h l :: (setSize w h <$> omap (M:=list) id ls)).
    by rewrite IH.
  - exact IH.
Qed.

(** ** What holds in every state the public API reaches *)

(** Through the public API the registry never gets a second user: the
    engine is bound to user 0, the only entry, and that entry's pixel
    buffer is the one made by the constructor, for a canvas that had no
    size yet; no resize and no command replaces it. *)
Theorem reachable_single_user
    (fresh : ToolState.t) (d : DrwParser.t) (r : DrwRendererBase) :
  reachable fresh d r →
  currentUser r = 0
  ∧ ∃ ts, userStates r = {[ 0 := UserState.mk ts None None ]}
          ∧ toolState r = Some ts.
Proof.
  assert (Hk : ∀ r ts, currentUser r = 0 →
            userStates r = {[ 0 := UserState.mk ts None None ]} →
            toolState r = Some ts).
  { intros r0 ts Hu Hm. unfold toolState. by rewrite Hu, Hm, lookup_singleton_eq. }
  assert (Hseek : ∀ r r' x, seekCommand x r = Some r' →
            currentUser r = 0 →
            (∃ ts, userStates r = {[ 0 := UserState.mk ts None None ]}) →
            currentUser r' = 0
            ∧ ∃ ts, userStates r' = {[ 0 := UserState.mk ts None None ]}).
  { intros r0 r' x Hs Hu (ts & Hm).
    destruct (seekCommand_writes _ _ _ Hs) as ((f & Hf) & _ & _ & Hu' & _).
    split; [congruence|]. exists (f ts).
    by rewrite Hf, Hu, Hm, alter_singleton_eq. }
  assert (Hmain : reachable fresh d r →
            currentUser r = 0
            ∧ ∃ ts, userStates r = {[ 0 := UserState.mk ts None None ]}).
  { induction 1 as [r Hnew | r w r' _ IH Hset | r x r' _ IH Hs
                    | r cb _ IH | r rate _ IH | r _ IH | r _ IH
                    | r r' _ IH Htick | r w _ IH Hthrown]; [.. | done].
    - rewrite new_DrwRendererBase_fresh in Hnew. injection Hnew as <-.
      split; [done|]. by eexists.
    - unfold setCanvasWidth in Hset.
      destruct (forEach_setSize _ _ _) as [[ls cs]|]; [|done].
      simpl in Hset. by injection Hset as <-.
    - destruct IH as [Hu Hm]. by eapply Hseek.
    - done.
    - done.
    - done.
    - done.
    - unfold tick in Htick. destruct (frames r) as [|k]; [by injection Htick as <-|].
      unfold playbackLoop in Htick.
      destruct (seekCommand _ _) as [r1|] eqn:Hs; [simpl in Htick|done].
      destruct IH as [Hu Hm].
      destruct (Hseek _ _ _ Hs Hu Hm) as [Hu1 Hm1].
      by destruct (isPlaying r1 && _); injection Htick as <-. }
  intros Hr. destruct (Hmain Hr) as (Hu & ts & Hm).
  split; [done|]. exists ts. split; [done|]. by apply Hk.
Qed.

(** [setCanvasWidth] returns exactly when the stack has no empty slot, and
    then the engine it returns is the one the loop leaves. *)
Lemma forEach_setSize_thrown_defined w h ls :
  Forall is_Some ls →
  forEach_setSize_thrown w h ls = (resized w h ls, setSize_calls w h ls).
Proof.
  induction 1 as [|o ls [l ->] _ IH]; [done|].
  cbn [forEach_setSize_thrown]. by rewrite IH.
Qed.

Lemma setCanvasWidth_thrown_returns w r r' :
  setCanvasWidth w r = Some r' → setCanvasWidth_thrown w r = r'.
Proof.
  unfold setCanvasWidth, setCanvasWidth_thrown.
  destruct (forEach_setSize _ _ _) as [[ls cs]|] eqn:Hf; [|done].
  simpl. intros [= <-].
  apply forEach_setSize_Some in Hf as (-> & -> & Hall).
  by rewrite (forEach_setSize_thrown_defined _ _ _ Hall).
Qed.

Lemma forEach_setSize_None w h ls :
  forEach_setSize w h ls = None → None ∈ ls.
Proof.
  induction ls as [|[l|] ls IH]; [done| |intros _; apply list_elem_of_here].
  cbn [forEach_setSize].
  destruct (forEach_setSize w h ls) as [[ls1 cs1]|]; [done|].
  intros _. apply list_elem_of_further. by apply IH.
Qed.

Lemma setSize_idents w h (ls : list DrwLayerBase.t) :
  map DrwLayerBase.ident (setSize w h <$> ls) = map DrwLayerBase.ident ls.
Proof. induction ls as [|l ls IH]; [done|]. cbn. by f_equal. Qed.

Lemma setSize_visible w h (ls : list DrwLayerBase.t) :
  Forall (λ l, DrwLayerBase.isVisible l = true) ls →
  setSize w h <$> ls
  = (λ i, DrwLayerBase.mk i (Some w) (Some h) true) <$> map DrwLayerBase.ident ls.
Proof.
  induction 1 as [|l ls Hl _ IH]; [done|].
  cbn. unfold setSize at 1. rewrite Hl. f_equal. exact IH.
Qed.

(** The interrupted loop keeps every slot in its place: the layers are the
    same ones, an empty slot stays empty. *)
Lemma forEach_setSize_thrown_keeps w h ls :
  map DrwLayerBase.ident (omap (M:=list) id (forEach_setSize_thrown w h ls).1)
  = map DrwLayerBase.ident (omap (M:=list) id ls)
  ∧ (Forall (λ l, DrwLayerBase.isVisible l = true) (omap (M:=list) id ls) →
     Forall (λ l, DrwLayerBase.isVisible l = true)
       (omap (M:=list) id (forEach_setSize_thrown w h ls).1))
  ∧ length (forEach_setSize_thrown w h ls).1 = length ls
  ∧ (None ∈ ls → None ∈ (forEach_setSize_thrown w h ls).1).
Proof.
  induction ls as [|[l|] ls (IH1 & IH2 & IH3 & IH4)]; [done| |done].
  cbn [forEach_setSize_thrown fst].
  change (omap (M:=list) id (Some ?a :: ?t)) with (a :: omap (M:=list) id t).
  cbn [map length]. rewrite IH1, IH3.
  split; [done|]. split; [|split; [done|]].
  - intros [Hl Hls]%Forall_cons. constructor; [exact Hl | by apply IH2].
  - intros [Hx|Hin]%elem_of_cons; [done|].
    apply list_elem_of_further. by apply IH4.
Qed.

Lemma omap_id_length {A} (l : list (option A)) :
  (length (omap (M:=list) id l) ≤ length l)%nat
  ∧ (length (omap (M:=list) id l) = length l → Forall is_Some l).
Proof.
  induction l as [|[a|] l [IH1 IH2]]; [by split| |].
  - change (omap (M:=list) id (Some a :: l)) with (a :: omap (M:=list) id l).
    cbn [length]. split; [lia|]. intros H. constructor; [by eexists|].
    apply IH2. lia.
  - change (omap (M:=list) id (None :: l)) with (omap (M:=list) id l).
    cbn [length]. split; [lia|]. intros H. lia.
Qed.

Lemma omap_id_defined {A} (l : list (option A)) :
  Forall is_Some l → length (omap (M:=list) id l) = length l.
Proof.
  induction 1 as [|o l [a ->] _ IH]; [done|].
  change (omap (M:=list) id (Some a :: l)) with (a :: omap (M:=list) id l).
  cbn [length]. by rewrite IH.
Qed.

(** In every state a host can hold, the one a throwing [setCanvasWidth]
    leaves included, no layer is ever lost, duplicated or replaced: the
    defined slots of the stack hold exactly the five layers the constructor
    made, in some order, all visible. As long as the stack has no empty
    slot each of them has the current width and height of the canvas; with
    an empty slot that can fail, since a resize then throws after it has
    written the canvas size. *)
Theorem reachable_layers
    (fresh : ToolState.t) (d : DrwParser.t) (r : DrwRendererBase) :
  reachable fresh d r →
  map DrwLayerBase.ident (omap (M:=list) id (layers r)) ≡ₚ [0; 1; 2; 3; 4]%nat
  ∧ Forall (λ l, DrwLayerBase.isVisible l = true) (omap (M:=list) id (layers r))
  ∧ (5 ≤ length (layers r))%nat
  ∧ (Forall is_Some (layers r) →
     omap (M:=list) id (layers r)
     ≡ₚ (λ i, DrwLayerBase.mk i (width r) (height r) true)
          <$> [0; 1; 2; 3; 4]%nat).
Proof.
  set (inv := λ r : DrwRendererBase,
    map DrwLayerBase.ident (omap (M:=list) id (layers r)) ≡ₚ [0; 1; 2; 3; 4]%nat
    ∧ Forall (λ l, DrwLayerBase.isVisible l = true) (omap (M:=list) id (layers r))
    ∧ (5 ≤ length (layers r))%nat
    ∧ (Forall is_Some (layers r) →
       omap (M:=list) id (layers r)
       ≡ₚ (λ i, DrwLayerBase.mk i (width r) (height r) true)
            <$> [0; 1; 2; 3; 4]%nat)).
  change (reachable fresh d r → inv r).
  assert (Hseek : ∀ r r' x, seekCommand x r = Some r' → inv r → inv r').
  { intros r0 r' x Hs (Hi & Hv & Hl & Hsz).
    destruct (seekCommand_writes _ _ _ Hs) as (_ & Hlay & Hlen & _ & Hw & Hh).
    unfold inv. rewrite Hlay, Hw, Hh.
    split; [done|]. split; [done|]. split; [lia|].
    intros Hall. apply Hsz.
    apply omap_id_length.
    pose proof (omap_id_defined _ Hall) as Hd.
    pose proof (Permutation_length Hlay) as Hp.
    pose proof (proj1 (omap_id_length (layers r0))). lia. }
  induction 1 as [r Hnew | r w r' _ IH Hset | r x r' _ IH Hs
                  | r cb _ IH | r rate _ IH | r _ IH | r _ IH
                  | r r' _ IH Htick | r w _ IH Hthrown].
  - rewrite new_DrwRendererBase_fresh in Hnew. injection Hnew as <-.
    split; [done|]. split; [by repeat constructor|].
    split; [simpl; lia|done].
  - unfold setCanvasWidth in Hset.
    destruct (forEach_setSize _ _ _) as [[ls cs]|] eqn:Hf; [|done].
    simpl in Hset. injection Hset as <-.
    apply forEach_setSize_Some in Hf as (-> & _ & _).
    destruct IH as (Hi & Hv & Hl & _). unfold inv.
    change (layers (set_calls _ (set_layers ?l _))) with l.
    change (layers (set_size _ _ r)) with (layers r).
    rewrite omap_resized.
    split; [|split; [|split]].
    + by rewrite setSize_idents.
    + rewrite (setSize_visible _ _ _ Hv). apply Forall_fmap. by apply Forall_true.
    + unfold resized. by rewrite length_map.
    + intros _. rewrite (setSize_visible _ _ _ Hv).
      change (map ?f ?l) with (f <$> l) in Hi. by rewrite Hi.
  - by eapply Hseek.
  - done.
  - done.
  - done.
  - done.
  - unfold tick in Htick. destruct (frames r) as [|k]; [by injection Htick as <-|].
    unfold playbackLoop in Htick.
    destruct (seekCommand _ _) as [r1|] eqn:Hs; [simpl in Htick|done].
    pose proof (Hseek _ _ _ Hs IH) as H1.
    by destruct (isPlaying r1 && _); injection Htick as <-.
  - destruct IH as (Hi & Hv & Hl & _). unfold inv.
    unfold setCanvasWidth in Hthrown.
    destruct (forEach_setSize _ _ _) as [[ls cs]|] eqn:Hf; [done|].
    apply forEach_setSize_None in Hf.
    change (layers (set_size _ _ r)) with (layers r) in Hf.
    unfold setCanvasWidth_thrown.
    change (layers (set_calls _ (set_layers ?l _))) with l.
    change (layers (set_size _ _ r)) with (layers r).
    destruct (forEach_setSize_thrown_keeps w
                (w / DrwHeader.aspectRatio (DrwParser.header (drw r))) (layers r))
      as (K1 & K2 & K3 & K4).
    split; [by rewrite K1|]. split; [by apply K2|]. split; [lia|].
    intros Hall. exfalso.
    apply K4 in Hf. rewrite Forall_forall in Hall.
    by destruct (Hall _ Hf).
Qed.

(** Through the public API the cursor stays between -1 and the last index
    of the log, and no seek and no frame of playback ever throws: in every
    reachable state [seekCommand] returns for every target, as do
    [seekStart], [seekEnd], [seekNext], [seekPrev] and a tick of the host. *)
Theorem reachable_seek_returns
    (fresh : ToolState.t) (d : DrwParser.t) (r : DrwRendererBase) :
  reachable fresh d r →
  numCommands r = Z.of_nat (length (DrwParser.commands d))
  ∧ -1 ≤ currCommandIndex r ≤ numCommands r - 1
  ∧ (∀ target, is_Some (seekCommand target r))
  ∧ is_Some (seekStart r) ∧ is_Some (seekEnd r)
  ∧ is_Some (seekNext r) ∧ is_Some (seekPrev r)
  ∧ is_Some (tick r).
Proof.
  intros Hr. pose proof (reachable_wf _ _ _ Hr) as Hwf.
  assert (Hdrw : drw r = d).
  { clear Hwf. induction Hr as [r Hnew | r w r' _ IH Hset | r x r' Hr0 IH Hs
                  | r cb _ IH | r rate _ IH | r _ IH | r _ IH
                  | r r' Hr0 IH Htick | r w _ IH Hthrown]; try done.
    - rewrite new_DrwRendererBase_fresh in Hnew. by injection Hnew as <-.
    - unfold setCanvasWidth in Hset.
      destruct (forEach_setSize _ _ _) as [[ls cs]|]; [|done].
      simpl in Hset. by injection Hset as <-.
    - destruct (seekCommand_seeked x r (reachable_wf _ _ _ Hr0))
        as (r'' & cs & Hr'' & Hsk).
      rewrite Hs in Hr''. injection Hr'' as <-. by rewrite (s_drw _ _ _ _ Hsk).
    - unfold tick in Htick. destruct (frames r) as [|k]; [by injection Htick as <-|].
      unfold playbackLoop in Htick.
      destruct (seekCommand _ _) as [r1|] eqn:Hs; [simpl in Htick|done].
      assert (Hwf1 : wf (set_frames k r))
        by (destruct (reachable_wf _ _ _ Hr0); by split).
      destruct (seekCommand_seeked
                  (currCommandIndex (set_frames k r) + playbackRate (set_frames k r))
                  _ Hwf1) as (r'' & cs & Hr'' & Hsk).
      rewrite Hs in Hr''. injection Hr'' as <-.
      pose proof (s_drw _ _ _ _ Hsk) as Hd1.
      destruct (isPlaying r1 && _); injection Htick as <-;
        (etrans; [exact Hd1 | exact IH]). }
  assert (Hall : ∀ target, is_Some (seekCommand target r)).
  { intros x. destruct (seekCommand_seeked x r Hwf) as (r' & cs & -> & _).
    by eexists. }
  split.
  { rewrite (wf_numCommands _ Hwf), Hdrw. done. }
  split; [apply Hwf|]. split; [done|].
  repeat (split; [apply Hall|]).
  unfold tick. destruct (frames r) as [|k] eqn:Hk; [by eexists|].
  assert (Hwf1 : wf (set_frames k r)) by (destruct Hwf; by split).
  destruct (playbackLoop_spec _ Hwf1) as (r' & -> & _). by eexists.
Qed.

(** ** The seek family *)

(** A seek writes the cursor, the tool state of the current user and the
    order of the stack, and nothing else: the playing flag, the batch
    size, the registered callback, the command count, the session, the
    canvas size, the frame queue, the other users and every pixel buffer
    are as before, and no layer is lost. *)
Theorem seekCommand_frame (r r' : DrwRendererBase) (target : Z) :
  wf r → seekCommand target r = Some r' →
  isPlaying r' = isPlaying r
  ∧ playbackRate r' = playbackRate r
  ∧ PlaybackState.updateCompleteCallback (playbackState r')
    = PlaybackState.updateCompleteCallback (playbackState r)
  ∧ numCommands r' = numCommands r
  ∧ drw r' = drw r ∧ width r' = width r ∧ height r' = height r
  ∧ frames r' = frames r ∧ currentUser r' = currentUser r
  ∧ dom (userStates r') = dom (userStates r)
  ∧ (∀ u, u ≠ currentUser r → userStates r' !! u = userStates r !! u)
  ∧ (∀ u, (UserState.bufferWidth <$> userStates r' !! u)
          = (UserState.bufferWidth <$> userStates r !! u)
        ∧ (UserState.bufferHeight <$> userStates r' !! u)
          = (UserState.bufferHeight <$> userStates r !! u))
  ∧ omap (M:=list) id (layers r') ≡ₚ omap (M:=list) id (layers r).
Proof.
  intros Hwf Hseek.
  destruct (seekCommand_seeked target r Hwf) as (r'' & cs & Hr'' & Hs).
  rewrite Hseek in Hr''. injection Hr'' as <-.
  destruct (seekCommand_writes _ _ _ Hseek) as ((f & Hf) & Hlay & _ & Hu & _).
  pose proof (s_playback _ _ _ _ Hs) as Hp.
  unfold isPlaying, playbackRate, numCommands. rewrite Hp.
  repeat (split; [done || apply Hs|]).
  split; [by rewrite Hf, dom_alter_L|]. split.
  { intros u Hne. by rewrite Hf, lookup_alter_ne. }
  split; [|done]. intros u. rewrite Hf.
  destruct (decide (currentUser r = u)) as [<-|Hne].
  - rewrite lookup_alter_eq. by destruct (userStates r !! currentUser r) as [[]|].
  - by rewrite lookup_alter_ne.
Qed.

Lemma same_rendering_refl r : same_rendering r r.
Proof. by split. Qed.

Lemma applyCommands_same_rendering idxs : ∀ r1 r2 r1',
  same_rendering r1 r2 → applyCommands idxs r1 = Some r1' →
  ∃ r2', applyCommands idxs r2 = Some r2' ∧ same_rendering r1' r2'.
Proof.
  induction idxs as [|i idxs IH]; intros r1 r2 r1' Hsame.
  - intros [= <-]. by exists r2.
  - cbn [applyCommands].
    destruct (handleCommand i r1) as [r1a|] eqn:H1; [simpl|done]. intros Hrest.
    destruct (handleCommand_same_rendering _ _ _ _ Hsame H1) as (r2a & -> & Ha).
    simpl. by eapply IH.
Qed.

Lemma fire_fire_same_rendering r1 r2 :
  same_rendering r1 r2 → same_rendering (fire r1) (fire r2).
Proof.
  intros [Hst Hcs]. split.
  - change (set_calls [] (fire r1)) with (set_calls [] r1).
    by change (set_calls [] (fire r2)) with (set_calls [] r2).
  - unfold fire, emit; simpl. by rewrite !List.filter_app, Hcs.
Qed.

(** Forward seeks compose: from a well-formed engine, seeking to a target
    at or after the cursor and then on to a later target ends in the same
    state, after the same backend calls in the same order, as seeking to
    the later target at once. Only the number of callbacks differs. *)
Theorem seekCommand_forward_compose (r : DrwRendererBase) (a b : Z) :
  wf r →
  currCommandIndex r ≤ clamp a (numCommands r) →
  clamp a (numCommands r) ≤ clamp b (numCommands r) →
  ∃ r1 r2 direct,
    seekCommand a r = Some r1
    ∧ seekCommand b r1 = Some r2
    ∧ seekCommand b r = Some direct
    ∧ same_rendering direct r2.
Proof.
  intros Hwf Ha Hb.
  set (n := numCommands r) in *. set (c := currCommandIndex r) in *.
  destruct (seekCommand_seeked a r Hwf) as (r1 & cs1 & Hr1 & Hs1).
  pose proof (seeked_wf _ _ _ _ Hwf Hs1) as Hwf1.
  pose proof (seeked_cursor _ _ _ _ Hs1) as Hc1.
  pose proof (seeked_numCommands _ _ _ _ Hs1) as Hn1.
  fold n in Hc1, Hn1.
  destruct (seekCommand_seeked b r1 Hwf1) as (r2 & cs2 & Hr2 & Hs2).
  destruct (seekCommand_seeked b r Hwf) as (direct & cs & Hd & Hs).
  exists r1, r2, direct. repeat (split; [done|]).
  destruct (seekCommand_Some_applyCommands _ _ _ Hr1) as (r1' & -> & H1).
  destruct (seekCommand_Some_applyCommands _ _ _ Hr2) as (r2' & -> & H2).
  destruct (seekCommand_Some_applyCommands _ _ _ Hd) as (d' & -> & H3).
  cbv zeta in H1, H2, H3. fold n c in H1, H3. rewrite Hn1, Hc1 in H2.
  rewrite decide_False in H1 by lia. rewrite decide_False in H2 by lia.
  rewrite decide_False in H3 by lia.
  replace (clamp b n - c)
    with ((clamp a n - c) + (clamp b n - clamp a n)) in H3 by lia.
  rewrite seqZ_app, applyCommands_app, H1 in H3 by lia. simpl in H3.
  replace (c + 1 + (clamp a n - c)) with (clamp a n + 1) in H3 by lia.
  destruct (applyCommands_same_rendering _ r1' (fire r1') d'
              (fire_same_rendering _ _ (same_rendering_refl r1')) H3)
    as (r2'' & H2' & Hsame).
  rewrite H2 in H2'. injection H2' as <-.
  by apply fire_fire_same_rendering.
Qed.

(** [seekNext] before the end of the log handles exactly the one command
    after the cursor and resets nothing; at the end of the log it handles
    nothing and only fires the callback. *)
Theorem seekNext_one_command (r : DrwRendererBase) :
  wf r →
  (currCommandIndex r < numCommands r - 1 →
   seekNext r = fire <$> handleCommand (currCommandIndex r + 1) r
   ∧ ∃ r', seekNext r = Some r'
         ∧ currCommandIndex r' = currCommandIndex r + 1
         ∧ List.filter is_resetLayer (new_calls r r') = [])
  ∧ (currCommandIndex r = numCommands r - 1 → seekNext r = Some (fire r)).
Proof.
  intros Hwf. pose proof (wf_cursor _ Hwf) as Hc. unfold seekNext. split.
  - intros Hlt. split; [apply seekCommand_next; lia|].
    destruct (seekCommand_seeked (currCommandIndex r + 1) r Hwf)
      as (r' & cs & Hr' & Hs).
    exists r'. split; [done|].
    assert (Hcl : clamp (currCommandIndex r + 1) (numCommands r)
                  = currCommandIndex r + 1) by (unfold clamp; lia).
    split; [by rewrite (seeked_cursor _ _ _ _ Hs)|].
    pose proof (s_calls _ _ _ _ Hs) as Hcalls.
    rewrite Hcl, decide_False in Hcalls by lia.
    rewrite (new_calls_app _ _ _ Hcalls). simpl.
    by rewrite List.filter_app, (dispatch_no_reset _ (s_dispatch _ _ _ _ Hs)).
  - intros Heq.
    destruct (seekCommand_seeked (currCommandIndex r + 1) r Hwf)
      as (r' & cs & -> & Hs).
    f_equal. apply (s_same _ _ _ _ Hs). unfold clamp. lia.
Qed.

(** [seekPrev] is a step back only from cursor 1 on, and then it costs a
    reset of every layer and a replay of all the commands before the
    cursor's; on an engine that has replayed nothing it steps forward, to
    command 0; at cursor 0 it does nothing but fire the callback. *)
Theorem seekPrev_cases (r : DrwRendererBase) :
  wf r →
  (currCommandIndex r = -1 → 0 < numCommands r →
   seekPrev r = fire <$> handleCommand 0 r)
  ∧ (currCommandIndex r = 0 → seekPrev r = Some (fire r))
  ∧ (1 ≤ currCommandIndex r →
     ∃ r' r2,
       seekPrev r = Some r' ∧ r' = fire r2
       ∧ currCommandIndex r' = currCommandIndex r - 1
       ∧ applyCommands (seqZ 0 (currCommandIndex r))
           (set_calls
              (calls r ++ (call_resetLayer <$>
                             seqZ 0 (Z.of_nat (length (layers r))))) r)
         = Some r2).
Proof.
  intros Hwf. pose proof (wf_cursor _ Hwf) as Hc. unfold seekPrev.
  split; [|split].
  - intros Heq Hn. rewrite <- (seekCommand_next 0 r) by lia.
    apply seekCommand_clamp_eq. unfold clamp. lia.
  - intros Heq.
    destruct (seekCommand_seeked (currCommandIndex r - 1) r Hwf)
      as (r' & cs & -> & Hs).
    f_equal. apply (s_same _ _ _ _ Hs). unfold clamp. lia.
  - intros Hge.
    destruct (seekCommand_seeked (currCommandIndex r - 1) r Hwf)
      as (r' & cs & Hr' & Hs).
    destruct (seekCommand_Some_applyCommands _ _ _ Hr') as (r2 & -> & Happly).
    cbv zeta in Happly.
    assert (Hcl : clamp (currCommandIndex r - 1) (numCommands r)
                  = currCommandIndex r - 1) by (unfold clamp; lia).
    rewrite Hcl, decide_True in Happly by lia.
    replace (currCommandIndex r - 1 + 1) with (currCommandIndex r) in Happly by lia.
    exists (fire r2), r2. split; [done|]. split; [done|]. split; [|done].
    by rewrite (seeked_cursor _ _ _ _ Hs).
Qed.

(** On an empty log every seek, whatever the target, leaves the cursor at
    -1, handles nothing, resets nothing and only fires the callback. *)
Theorem seekCommand_empty_log (r : DrwRendererBase) (target : Z) :
  wf r → numCommands r = 0 →
  seekCommand target r = Some (fire r) ∧ currCommandIndex (fire r) = -1.
Proof.
  intros Hwf Hn. pose proof (wf_cursor _ Hwf) as Hc.
  destruct (seekCommand_seeked target r Hwf) as (r' & cs & -> & Hs).
  assert (Heq : clamp target (numCommands r) = currCommandIndex r)
    by (unfold clamp; lia).
  rewrite (s_same _ _ _ _ Hs Heq). split; [done|].
  change (currCommandIndex (fire r)) with (currCommandIndex r). lia.
Qed.

(** [seekEnd] never resets a layer; [seekStart] resets them exactly when
    the cursor is past command 0. On a log with a command they leave the
    cursor at the last index and at 0. *)
Theorem seekStart_seekEnd (r : DrwRendererBase) :
  wf r → 0 < numCommands r →
  ∃ r0 r1,
    seekStart r = Some r0 ∧ seekEnd r = Some r1
    ∧ currCommandIndex r0 = 0
    ∧ currCommandIndex r1 = numCommands r - 1
    ∧ List.filter is_resetLayer (new_calls r r1) = []
    ∧ List.filter is_resetLayer (new_calls r r0)
      = if decide (0 < currCommandIndex r)
        then call_resetLayer <$> seqZ 0 (Z.of_nat (length (layers r)))
        else [].
Proof.
  intros Hwf Hn. pose proof (wf_cursor _ Hwf) as Hc. unfold seekStart, seekEnd.
  destruct (seekCommand_seeked 0 r Hwf) as (r0 & cs0 & Hr0 & Hs0).
  destruct (seekCommand_seeked (numCommands r - 1) r Hwf) as (r1 & cs1 & Hr1 & Hs1).
  exists r0, r1. split; [done|]. split; [done|].
  assert (Hcl0 : clamp 0 (numCommands r) = 0) by (unfold clamp; lia).
  assert (Hcl1 : clamp (numCommands r - 1) (numCommands r) = numCommands r - 1)
    by (unfold clamp; lia).
  split; [by rewrite (seeked_cursor _ _ _ _ Hs0)|].
  split; [by rewrite (seeked_cursor _ _ _ _ Hs1)|].
  pose proof (s_calls _ _ _ _ Hs0) as Hcalls0.
  pose proof (s_calls _ _ _ _ Hs1) as Hcalls1.
  rewrite Hcl0 in Hcalls0. rewrite Hcl1, decide_False in Hcalls1 by lia.
  rewrite (new_calls_app _ _ _ Hcalls0), (new_calls_app _ _ _ Hcalls1).
  rewrite !List.filter_app, (dispatch_no_reset _ (s_dispatch _ _ _ _ Hs0)),
    (dispatch_no_reset _ (s_dispatch _ _ _ _ Hs1)).
  split; [done|]. simpl. rewrite app_nil_r.
  case_decide; [apply resets_all_reset | done].
Qed.

(** ** Playback, pausing and the callback *)


Lemma ticks_to_the_end m : ∀ r,
  wf r → 1 ≤ playbackRate r → isPlaying r = true → frames r = 1%nat →
  (Z.to_nat (numCommands r - 1 - currCommandIndex r) ≤ m)%nat →
  ∃ k r', (1 ≤ k ≤ S m)%nat
        ∧ ticks k r = Some r'
        ∧ currCommandIndex r' = numCommands r - 1
        ∧ isPlaying r' = false
        ∧ frames r' = 0%nat.
Proof.
  induction m as [|m IH]; intros r Hwf Hrate Hplay Hfr Hm;
    pose proof (wf_cursor _ Hwf) as Hc;
    (destruct (tick_spec r Hwf) as (r1 & Ht & Hwf1 & Hn1 & Hr1 & Hc1 & Hi);
       [by rewrite Hfr|]);
    rewrite Hplay, Hfr in Hi; simpl in Hi;
    pose proof (wf_cursor _ Hwf1) as Hc1'; rewrite Hn1 in Hc1';
    case_bool_decide as Hlt.
  - unfold clamp in Hc1. lia.
  - destruct Hi as [Hp1 Hf1]. exists 1%nat, r1. split; [lia|].
    cbn [ticks]. rewrite Ht. simpl. repeat split; (done || lia).
  - destruct Hi as [Hp1 Hf1].
    destruct (IH r1 Hwf1) as (k & r' & Hk & Hticks & Hc' & Hp' & Hf');
      [lia | done | done | unfold clamp in Hc1; lia |].
    exists (S k), r'. split; [lia|]. cbn [ticks]. rewrite Ht. simpl.
    split; [done|]. split; [by rewrite <- Hn1|]. done.
  - destruct Hi as [Hp1 Hf1]. exists 1%nat, r1. split; [lia|].
    cbn [ticks]. rewrite Ht. simpl. repeat split; (done || lia).
Qed.

(** Playback ends: with a batch size of at least 1, [play] on an engine
    with no frame queued reaches the last command after at most as many
    frames as there are commands left (and at least one), and then stops by
    itself: the cursor is at [numCommands - 1], the playing flag is
    cleared and no frame is queued. *)
Theorem play_runs_to_the_end (r : DrwRendererBase) :
  wf r → frames r = 0%nat → 1 ≤ playbackRate r →
  ∃ k r',
    (1 ≤ k ≤ S (Z.to_nat (numCommands r - 1 - currCommandIndex r)))%nat
    ∧ ticks k (play r) = Some r'
    ∧ currCommandIndex r' = numCommands r - 1
    ∧ isPlaying r' = false
    ∧ frames r' = 0%nat.
Proof.
  intros Hwf Hf Hrate.
  assert (Hwf1 : wf (play r)) by (destruct Hwf; by split).
  apply (ticks_to_the_end _ (play r)); try done.
  simpl. by rewrite Hf.
Qed.

Lemma ticks_without_progress k : ∀ r,
  wf r → playbackRate r ≤ 0 → 2 ≤ numCommands r →
  isPlaying r = true → frames r = 1%nat →
  currCommandIndex r < numCommands r - 1 →
  ∃ r', ticks k r = Some r'
      ∧ isPlaying r' = true ∧ frames r' = 1%nat
      ∧ currCommandIndex r' ≤ Z.max 0 (currCommandIndex r).
Proof.
  induction k as [|k IH]; intros r Hwf Hrate Hn Hplay Hfr Hlt.
  - exists r. repeat split; (done || lia).
  - destruct (tick_spec r Hwf) as (r1 & Ht & Hwf1 & Hn1 & Hr1 & Hc1 & Hi);
      [by rewrite Hfr|].
    pose proof (wf_cursor _ Hwf) as Hc.
    assert (Hle : currCommandIndex r1 ≤ Z.max 0 (currCommandIndex r))
      by (unfold clamp in Hc1; lia).
    rewrite Hplay, Hfr, bool_decide_true in Hi by lia. destruct Hi as [Hp1 Hf1].
    destruct (IH r1 Hwf1) as (r' & Hticks & Hp' & Hf' & Hc'); try (done || lia).
    exists r'. cbn [ticks]. rewrite Ht. simpl. repeat split; (done || lia).
Qed.

(** Playback with a batch size of 0 or less never ends: on a log of two or
    more commands, after [play] every frame queues the next one, the
    playing flag stays set and the cursor never reaches the last
    command. *)
Theorem play_with_no_batch_never_ends (r : DrwRendererBase) (k : nat) :
  wf r → frames r = 0%nat → playbackRate r ≤ 0 → 2 ≤ numCommands r →
  currCommandIndex r < numCommands r - 1 →
  ∃ r', ticks k (play r) = Some r'
      ∧ isPlaying r' = true ∧ frames r' = 1%nat
      ∧ currCommandIndex r' < numCommands r - 1.
Proof.
  intros Hwf Hf Hrate Hn Hlt.
  assert (Hwf1 : wf (play r)) by (destruct Hwf; by split).
  destruct (ticks_without_progress k (play r)) as (r' & Ht & Hp & Hfr & Hc);
    try done.
  { simpl. by rewrite Hf. }
  exists r'. repeat (split; [done|]).
  change (currCommandIndex (play r)) with (currCommandIndex r) in Hc. lia.
Qed.


(** [onUpdate] replaces the callback and calls nothing: after two
    registrations a seek fires the second callback, once, and never the
    first. *)
Theorem onUpdate_last_wins (r : DrwRendererBase) (first second : nat) (target : Z) :
  wf r →
  onUpdate second (onUpdate first r) = onUpdate second r
  ∧ calls (onUpdate second r) = calls r
  ∧ ∃ r', seekCommand target (onUpdate second (onUpdate first r)) = Some r'
        ∧ List.filter is_callback (new_calls (onUpdate second r) r')
          = [call_updateComplete second].
Proof.
  intros Hwf. split; [done|]. split; [done|].
  assert (Hwf1 : wf (onUpdate second r)) by (destruct Hwf; by split).
  destruct (seekCommand_seeked target _ Hwf1) as (r' & cs & Hr' & Hs).
  exists r'. split; [done|].
  rewrite (new_calls_app _ _ _ (s_calls _ _ _ _ Hs)).
  rewrite !List.filter_app, (dispatch_no_callback _ (s_dispatch _ _ _ _ Hs)).
  case_decide; by rewrite ?resets_no_callback.
Qed.

(** ** Resizing twice *)

Lemma resized_resized w1 h1 w2 h2 ls :
  resized w2 h2 (resized w1 h1 ls) = resized w2 h2 ls.
Proof.
  unfold resized. rewrite map_map. apply map_ext. by intros [[]|].
Qed.

Lemma resized_defined w h ls : Forall is_Some ls → Forall is_Some (resized w h ls).
Proof.
  unfold resized. induction 1 as [|o ls [l ->] _ IH]; constructor; [by eexists|done].
Qed.

Lemma setSize_calls_resized w1 h1 w2 h2 ls :
  setSize_calls w2 h2 (resized w1 h1 ls) = setSize_calls w2 h2 ls.
Proof.
  unfold setSize_calls. rewrite omap_resized.
  change (map ?f ?l) with (f <$> l). rewrite <- list_fmap_compose.
  apply list_fmap_ext. by intros ? [].
Qed.

(** The last [setCanvasWidth] decides: resizing to [w1] and then to [w2]
    leaves the engine as resizing to [w2] alone does, apart from the
    [setSize] calls already made, and the second resize calls [setSize]
    once on every layer with the second size. *)
Theorem setCanvasWidth_twice (r : DrwRendererBase) (w1 w2 : float) :
  Forall is_Some (layers r) →
  ∃ r1 r2 direct,
    setCanvasWidth w1 r = Some r1
    ∧ setCanvasWidth w2 r1 = Some r2
    ∧ setCanvasWidth w2 r = Some direct
    ∧ set_calls [] r2 = set_calls [] direct
    ∧ new_calls r1 r2 = new_calls r direct.
Proof.
  intros Hls. unfold setCanvasWidth.
  change (layers (set_size _ _ r)) with (layers r).
  rewrite !(forEach_setSize_defined _ _ _ Hls). simpl.
  eexists _, _, _. split; [reflexivity|].
  match goal with |- context [forEach_setSize ?w ?h ?l] =>
    rewrite (forEach_setSize_defined w h l) by (by apply resized_defined)
  end.
  simpl. split; [reflexivity|]. split; [reflexivity|]. split.
  - unfold set_calls, set_layers, set_size; simpl. by rewrite resized_resized.
  - unfold new_calls; simpl. rewrite !drop_app_length.
    apply setSize_calls_resized.
Qed.

(** ** The properties above on the sample sessions *)

Lemma setUser_switch_back_witness :
  toolState
    (setUser sample_toolState 0
       (with_toolState (ToolState.set_color 5)
          (setUser sample_toolState 1
             (fresh_engine sample_toolState sample_stroke))))
  = Some (ToolState.set_layer 0 sample_toolState).
Proof.
  assert (H0 : currentUser (fresh_engine sample_toolState sample_stroke) = 0)
    by reflexivity.
  assert (Hne : (0 : Z) ≠ 1) by lia.
  assert (Hts : is_Some (toolState (fresh_engine sample_toolState sample_stroke)))
    by (eexists; vm_compute; reflexivity).
  destruct (setUser_switch_back sample_toolState 0 1 (ToolState.set_color 5)
              _ H0 Hne Hts) as [H _].
  rewrite H. vm_compute. reflexivity.
Defined.

Lemma moveLayer_permutes_witness :
  idents (layers (moveLayer 0 2 (fresh_engine sample_toolState sample_stroke)))
  ≡ₚ [Some 0; Some 1; Some 2; Some 3; Some 4]%nat.
Proof.
  assert (Hne : layers (fresh_engine sample_toolState sample_stroke) ≠ [])
    by (simpl; discriminate).
  assert (Hs : 0 < Z.of_nat (length (layers (fresh_engine sample_toolState sample_stroke))))
    by (simpl; lia).
  destruct (moveLayer_permutes 0 2 _ Hne Hs) as (Hp & _).
  unfold idents. change (map ?f ?l) with (f <$> l). rewrite Hp. reflexivity.
Defined.

Lemma moveLayer_round_trip_witness :
  layers (moveLayer 3 1 (moveLayer 1 3 (fresh_engine sample_toolState sample_stroke)))
  = layers (fresh_engine sample_toolState sample_stroke).
Proof.
  apply moveLayer_round_trip; simpl; lia.
Defined.

Lemma moveLayer_negative_source_witness :
  moveLayer (-1) 0 (fresh_engine sample_toolState sample_stroke)
  = moveLayer 4 0 (fresh_engine sample_toolState sample_stroke).
Proof.
  assert (H : - Z.of_nat (length (layers (fresh_engine sample_toolState sample_stroke)))
              ≤ -1 < 0) by (simpl; lia).
  destruct (moveLayer_negative_source (-1) 0 _ H) as [Heq _]. exact Heq.
Defined.

Lemma handleCommand_set_unchecked_witness :
  ∃ r', handleCommand 0 (fresh_engine sample_toolState sample_move_beyond) = Some r'
      ∧ (ToolState.layer <$> toolState r') = Some 7
      ∧ activeLayer r' = None.
Proof.
  destruct (handleCommand_set_unchecked
              (fresh_engine sample_toolState sample_move_beyond) 0
              (sample_layerAction LAYERACTION_SET 7) 7
              (ToolState.set_layer 0 sample_toolState)
              eq_refl eq_refl eq_refl eq_refl eq_refl)
    as (r' & H1 & H2 & _ & _ & H3).
  exists r'. split; [exact H1|]. split; [rewrite H2; reflexivity|].
  apply H3. simpl. lia.
Defined.


Lemma handleCommand_layerAction_keeps_stroke_witness :
  ∃ r', handleCommand 0 (fresh_engine sample_toolState sample_move_beyond) = Some r'
      ∧ (ToolState.isDrawing <$> toolState r') = Some false
      ∧ List.filter is_stroke_call
          (new_calls (fresh_engine sample_toolState sample_move_beyond) r') = [].
Proof.
  destruct (handleCommand_layerAction_keeps_stroke
              (fresh_engine sample_toolState sample_move_beyond) 0
              (sample_layerAction LAYERACTION_SET 7) 7
              (ToolState.set_layer 0 sample_toolState)
              eq_refl eq_refl eq_refl eq_refl)
    as (r' & l' & H1 & H2 & H3 & _).
  exists r'. split; [exact H1|]. split; [rewrite H2; reflexivity | exact H3].
Defined.

Lemma seekCommand_through_stroke_witness :
  ∃ r', seekCommand 2 (fresh_engine sample_toolState sample_stroke) = Some r'
      ∧ new_calls (fresh_engine sample_toolState sample_stroke) r'
        = [call_beginStroke nan nan 1; call_strokeTo nan nan 1;
           call_finalizeStroke; call_updateComplete 0].
Proof.
  assert (Hwf : wf (fresh_engine sample_toolState sample_stroke))
    by wf_by_evaluation.
  assert (Hall : Forall (λ c, Command.type c = TYPE_DRAW)
                   [sample_draw 0.25 0.25 1; sample_draw 0.75 0.75 1])
    by (repeat constructor).
  destruct (seekCommand_through_stroke
              (fresh_engine sample_toolState sample_stroke)
              [] [sample_draw 0.25 0.25 1; sample_draw 0.75 0.75 1] []
              sample_drawEnd (ToolState.set_layer 0 sample_toolState)
              Hwf eq_refl Hall eq_refl eq_refl eq_refl eq_refl eq_refl)
    as (r' & H1 & H2 & _).
  exists r'. split; [exact H1|]. rewrite H2. vm_compute. reflexivity.
Defined.

Lemma handleCommand_draw_without_canvas_size_witness :
  ∃ r', handleCommand 0 (fresh_engine sample_toolState sample_stroke) = Some r'
      ∧ new_calls (fresh_engine sample_toolState sample_stroke) r'
        = [call_beginStroke nan nan 1].
Proof.
  destruct (handleCommand_draw_without_canvas_size
              (fresh_engine sample_toolState sample_stroke) 0
              (sample_draw 0.25 0.25 1) (ToolState.set_layer 0 sample_toolState)
              eq_refl eq_refl eq_refl eq_refl eq_refl)
    as (r' & H1 & H2 & _).
  exists r'. split; [exact H1 | exact H2].
Defined.

Lemma sample_stroke_begun_reachable :
  reachable sample_toolState sample_stroke sample_stroke_begun.
Proof.
  eapply reach_seekCommand with (target := 0).
  - apply reach_new. apply new_DrwRendererBase_fresh.
  - vm_compute. reflexivity.
Qed.

Lemma reachable_single_user_witness :
  dom (userStates sample_stroke_begun) = {[ 0 ]}.
Proof.
  destruct (reachable_single_user _ _ _ sample_stroke_begun_reachable)
    as (_ & ts & Hm & _).
  rewrite Hm. apply dom_singleton_L.
Defined.

Lemma sample_resize_thrown_reachable :
  reachable sample_toolState sample_move_beyond sample_resize_thrown.
Proof.
  change sample_resize_thrown with (setCanvasWidth_thrown 300 sample_moved_beyond).
  apply reach_setCanvasWidth_thrown; [|vm_compute; reflexivity].
  eapply reach_seekCommand with (target := 1);
    [eapply reach_setCanvasWidth with (w := 100%float);
       [apply reach_new, new_DrwRendererBase_fresh | reflexivity] |].
  vm_compute. reflexivity.
Qed.

Lemma reachable_layers_witness :
  map DrwLayerBase.ident (omap (M:=list) id (layers sample_resize_thrown))
  ≡ₚ [0; 1; 2; 3; 4]%nat
  ∧ ∃ r, setCanvasWidth 100 (fresh_engine sample_toolState sample_stroke) = Some r
       ∧ omap (M:=list) id (layers r)
         ≡ₚ (λ i, DrwLayerBase.mk i (Some 100%float) (Some 100%float) true)
              <$> [0; 1; 2; 3; 4]%nat.
Proof.
  split.
  - destruct (reachable_layers _ _ _ sample_resize_thrown_reachable) as [H _].
    exact H.
  - eexists. split; [reflexivity|].
    refine (proj2 (proj2 (proj2
      (reachable_layers sample_toolState sample_stroke _
         (reach_setCanvasWidth _ _ _ 100%float _
            (reach_new _ _ _ (new_DrwRendererBase_fresh _ _)) eq_refl)))) _).
    repeat (constructor; [eexists; reflexivity|]). constructor.
Defined.

(** Why the sizes are stated for a stack without empty slot only: the
    resize of [sample_resize_thrown] threw at the first slot, so the canvas
    is 300 wide and all five layers are still 100 wide. *)
Example resize_thrown_leaves_old_sizes :
  setCanvasWidth 300 sample_moved_beyond = None
  ∧ width sample_resize_thrown = Some 300%float
  ∧ omap (M:=list) id (layers sample_resize_thrown)
    = (λ i, DrwLayerBase.mk i (Some 100%float) (Some 100%float) true)
        <$> [0; 1; 2; 3; 4]%nat.
Proof. vm_compute. done. Qed.

Lemma reachable_seek_returns_witness : is_Some (seekPrev sample_stroke_begun).
Proof.
  destruct (reachable_seek_returns _ _ _ sample_stroke_begun_reachable)
    as (_ & _ & _ & _ & _ & _ & H & _).
  exact H.
Defined.

Lemma seekCommand_frame_witness :
  playbackRate sample_stroke_done
  = playbackRate (fresh_engine sample_toolState sample_stroke)
  ∧ frames sample_stroke_done = 0%nat.
Proof.
  assert (Hwf : wf (fresh_engine sample_toolState sample_stroke))
    by wf_by_evaluation.
  destruct (seekCommand_frame _ _ 2 Hwf sample_stroke_done_seeked)
    as (_ & H1 & _ & _ & _ & _ & _ & H2 & _).
  split; [exact H1 | exact H2].
Defined.

Lemma seekCommand_forward_compose_witness :
  ∃ r1 r2 direct,
    seekCommand 0 (fresh_engine sample_toolState sample_stroke) = Some r1
    ∧ seekCommand 2 r1 = Some r2
    ∧ seekCommand 2 (fresh_engine sample_toolState sample_stroke) = Some direct
    ∧ same_rendering direct r2.
Proof.
  assert (Hwf : wf (fresh_engine sample_toolState sample_stroke))
    by wf_by_evaluation.
  apply (seekCommand_forward_compose _ 0 2 Hwf); vm_compute; discriminate.
Defined.

Lemma seekNext_one_command_witness :
  seekNext sample_stroke_begun = fire <$> handleCommand 1 sample_stroke_begun
  ∧ seekNext sample_stroke_done = Some (fire sample_stroke_done).
Proof.
  assert (Hwf1 : wf sample_stroke_begun) by wf_by_evaluation.
  assert (Hwf2 : wf sample_stroke_done) by wf_by_evaluation.
  destruct (seekNext_one_command _ Hwf1) as [H1 _].
  destruct (seekNext_one_command _ Hwf2) as [_ H2].
  split.
  - apply H1. vm_compute. reflexivity.
  - apply H2. vm_compute. reflexivity.
Defined.

Lemma seekPrev_cases_witness :
  seekPrev (fresh_engine sample_toolState sample_stroke)
  = fire <$> handleCommand 0 (fresh_engine sample_toolState sample_stroke)
  ∧ seekPrev sample_stroke_begun = Some (fire sample_stroke_begun)
  ∧ ∃ r', seekPrev sample_stroke_done = Some r' ∧ currCommandIndex r' = 1.
Proof.
  assert (Hwf0 : wf (fresh_engine sample_toolState sample_stroke))
    by wf_by_evaluation.
  assert (Hwf1 : wf sample_stroke_begun) by wf_by_evaluation.
  assert (Hwf2 : wf sample_stroke_done) by wf_by_evaluation.
  destruct (seekPrev_cases _ Hwf0) as (H0 & _ & _).
  destruct (seekPrev_cases _ Hwf1) as (_ & H1 & _).
  destruct (seekPrev_cases _ Hwf2) as (_ & _ & H2).
  split; [apply H0; vm_compute; reflexivity|].
  split; [apply H1; vm_compute; reflexivity|].
  destruct H2 as (r' & r2 & Hr' & _ & Hc & _); [vm_compute; discriminate|].
  exists r'. split; [exact Hr' | exact Hc].
Defined.

Lemma seekCommand_empty_log_witness :
  seekCommand 5 (fresh_engine sample_toolState sample_empty)
  = Some (fire (fresh_engine sample_toolState sample_empty)).
Proof.
  assert (Hwf : wf (fresh_engine sample_toolState sample_empty))
    by wf_by_evaluation.
  destruct (seekCommand_empty_log _ 5 Hwf eq_refl) as [H _]. exact H.
Defined.

Lemma seekStart_seekEnd_witness :
  ∃ r0 r1,
    seekStart sample_stroke_done = Some r0 ∧ seekEnd sample_stroke_done = Some r1
    ∧ currCommandIndex r0 = 0
    ∧ List.filter is_resetLayer (new_calls sample_stroke_done r1) = [].
Proof.
  assert (Hwf : wf sample_stroke_done) by wf_by_evaluation.
  assert (Hn : 0 < numCommands sample_stroke_done) by (vm_compute; reflexivity).
  destruct (seekStart_seekEnd _ Hwf Hn) as (r0 & r1 & H0 & H1 & Hc & _ & Hr & _).
  exists r0, r1. repeat (split; [assumption|]). exact Hr.
Defined.


Lemma play_runs_to_the_end_witness :
  ∃ k r', ticks k (play (fresh_engine sample_toolState sample_long)) = Some r'
        ∧ currCommandIndex r' = 449
        ∧ isPlaying r' = false.
Proof.
  assert (Hwf : wf (fresh_engine sample_toolState sample_long))
    by wf_by_evaluation.
  assert (Hrate : 1 ≤ playbackRate (fresh_engine sample_toolState sample_long))
    by (vm_compute; discriminate).
  destruct (play_runs_to_the_end _ Hwf eq_refl Hrate)
    as (k & r' & _ & H1 & H2 & H3 & _).
  exists k, r'. split; [exact H1|]. split; [exact H2 | exact H3].
Defined.

Lemma play_with_no_batch_never_ends_witness :
  ∃ r', ticks 1000
          (play (set_playbackRate 0 (fresh_engine sample_toolState sample_long)))
        = Some r'
      ∧ isPlaying r' = true.
Proof.
  assert (Hwf : wf (set_playbackRate 0 (fresh_engine sample_toolState sample_long)))
    by wf_by_evaluation.
  assert (Hrate : playbackRate
            (set_playbackRate 0 (fresh_engine sample_toolState sample_long)) ≤ 0)
    by (vm_compute; discriminate).
  assert (Hn : 2 ≤ numCommands
            (set_playbackRate 0 (fresh_engine sample_toolState sample_long)))
    by (vm_compute; discriminate).
  assert (Hlt : currCommandIndex
            (set_playbackRate 0 (fresh_engine sample_toolState sample_long))
          < numCommands
              (set_playbackRate 0 (fresh_engine sample_toolState sample_long)) - 1)
    by (vm_compute; reflexivity).
  destruct (play_with_no_batch_never_ends _ 1000 Hwf eq_refl Hrate Hn Hlt)
    as (r' & H1 & H2 & _).
  exists r'. split; [exact H1 | exact H2].
Defined.

Lemma onUpdate_last_wins_witness :
  ∃ r', seekCommand 1
          (onUpdate 2 (onUpdate 1 (fresh_engine sample_toolState sample_stroke)))
        = Some r'
      ∧ List.filter is_callback
          (new_calls (onUpdate 2 (fresh_engine sample_toolState sample_stroke)) r')
        = [call_updateComplete 2].
Proof.
  assert (Hwf : wf (fresh_engine sample_toolState sample_stroke))
    by wf_by_evaluation.
  destruct (onUpdate_last_wins _ 1 2 1 Hwf) as (_ & _ & H). exact H.
Defined.

Lemma setCanvasWidth_twice_witness :
  ∃ r1 r2 direct,
    setCanvasWidth 100 (fresh_engine sample_toolState sample_stroke) = Some r1
    ∧ setCanvasWidth 300 r1 = Some r2
    ∧ setCanvasWidth 300 (fresh_engine sample_toolState sample_stroke) = Some direct
    ∧ set_calls [] r2 = set_calls [] direct.
Proof.
  assert (Hls : Forall is_Some (layers (fresh_engine sample_toolState sample_stroke))).
  { simpl. repeat constructor; by eexists. }
  destruct (setCanvasWidth_twice _ 100 300 Hls)
    as (r1 & r2 & direct & H1 & H2 & H3 & H4 & _).
  exists r1, r2, direct. repeat (split; [assumption|]). exact H4.
Defined.

Lemma seek_fresh_same_as_stepwise_witness :
  ∃ once stepwise,
    seekCommand 2 (fresh_engine sample_toolState sample_stroke) = Some once
    ∧ seekEach [0; 1; 2] (fresh_engine sample_toolState sample_stroke)
      = Some stepwise
    ∧ same_rendering once stepwise.
Proof.
  apply (seek_fresh_same_as_stepwise sample_toolState sample_stroke 2).
  vm_compute. split; [discriminate | reflexivity].
Defined.

